(** * EV charger sizing calculator: circuit sizing and switchboard aggregation

    A shallow embedding of [calculate_requirements] and [calculate_msb] as
    they are written in [electrical_specs.py] (fixed constants) and in
    [charger_specs.py] (user-adjustable parameters), with the standards tables
    both files carry, and of [generate_sld], [get_incomer_cable_size],
    [remove_charger] and the buttons that edit the list of chargers.

    Numbers.  Python [int]s that are only compared and displayed (breaker
    ratings, switchboard ratings, quantities) are [Z].  Every value that takes
    part in a division is a rational [Q]: float arithmetic is idealised as
    exact arithmetic, [math.sqrt(3)] is the binary64 number Python returns,
    and a division by zero raises as it does in Python.  Overflow, NaN and
    the rounding error of single float operations, and with it the effect of
    the order of additions on a float sum, are outside the model. *)

From Stdlib Require Import ZArith QArith Qround List Sorted Lia Lqa Bool String.
Import ListNotations.

Open Scope Q_scope.

(** ** Python primitives used by both files *)

Inductive PyExn : Type :=
| KeyError
| ZeroDivisionError.

(** Outcome of a Python call: it returns a value or raises. *)
Inductive py (A : Type) : Type :=
| Return (a : A)
| Raise (e : PyExn).

Arguments Return {A} a.
Arguments Raise {A} e.

Definition bind {A B : Type} (m : py A) (k : A -> py B) : py B :=
  match m with
  | Return a => k a
  | Raise e => Raise e
  end.

Notation "x <- m ;; k" := (bind m (fun x => k))
  (at level 61, m at next level, right associativity).

(** [a / b] on numbers. *)
Definition truediv (a b : Q) : py Q :=
  if Qeq_bool b 0 then Raise ZeroDivisionError else Return (a / b).

(** [d[k]] on a dict with numeric keys, kept as the list of its items. *)
Fixpoint getitem {V : Type} (d : list (Q * V)) (k : Q) : py V :=
  match d with
  | [] => Raise KeyError
  | (k', v) :: d' => if Qeq_bool k' k then Return v else getitem d' k
  end.

(** [math.sqrt(3)]: the double 1.7320508075688772, mantissa
    7800463371553962 and exponent -52. *)
Definition sqrt3 : Q := 7800463371553962 # 4503599627370496.

(** Rounding of a rational to the nearest integer, ties to the even one. *)
Definition round_half_even (y : Q) : Z :=
  let f := Qfloor y in
  match Qcompare (y - inject_Z f) (1 # 2) with
  | Lt => f
  | Gt => (f + 1)%Z
  | Eq => if Z.even f then f else (f + 1)%Z
  end.

(** [round(x, ndigits)]. *)
Definition round (x : Q) (ndigits : Z) : Q :=
  inject_Z (round_half_even (x * 10 ^ ndigits)) / 10 ^ ndigits.

(** [math.ceil]. *)
Definition ceil (x : Q) : Z := Qceiling x.

(** [next((b for b in ladder if b >= x), None)]. *)
Definition next_rating (ladder : list Z) (x : Q) : option Z :=
  find (fun b => Qle_bool x (inject_Z b)) ladder.

(** [sorted] on the items of a dict: tuples compare by key, then by value. *)
Definition item_leb (a b : Q * Q) : bool :=
  match Qcompare (fst a) (fst b) with
  | Lt => true
  | Eq => Qle_bool (snd a) (snd b)
  | Gt => false
  end.

Fixpoint insert_item (a : Q * Q) (l : list (Q * Q)) : list (Q * Q) :=
  match l with
  | [] => [a]
  | b :: l' => if item_leb a b then a :: l else b :: insert_item a l'
  end.

Definition sorted (l : list (Q * Q)) : list (Q * Q) :=
  fold_right insert_item [] l.

(** [next(((size, ampacity) for size, ampacity in sorted(table.items())
          if ampacity >= breaker_size), None)]. *)
Definition next_cable (table : list (Q * Q)) (breaker_size : Z)
  : option (Q * Q) :=
  find (fun item => Qle_bool (inject_Z breaker_size) (snd item)) (sorted table).

(** Truthiness of a number: [not x] holds of zero. *)
Definition falsy_Z (x : Z) : bool := (x =? 0)%Z.
Definition falsy_Q (x : Q) : bool := Qeq_bool x 0.

(** [l.pop(index)]: the element removed and the list left, or [IndexError].
    A negative index counts from the end of the list. *)
Inductive pop_result (A : Type) : Type :=
| Popped (x : A) (rest : list A)
| IndexError.

Arguments Popped {A} x rest.
Arguments IndexError {A}.

Definition pop {A : Type} (l : list A) (index : Z) : pop_result A :=
  let n := Z.of_nat (List.length l) in
  let i := if (index <? 0)%Z then (index + n)%Z else index in
  if ((i <? 0) || (n <=? i))%Z then IndexError
  else
    match nth_error l (Z.to_nat i) with
    | Some x => Popped x (firstn (Z.to_nat i) l ++ skipn (S (Z.to_nat i)) l)
    | None => IndexError
    end.

(** ** Enumerations shared by the two files *)

Inductive ChargerType : Type := AC | DC.

(** ["Single"], ["Three"], ["DC"]. *)
Inductive PhaseType : Type := Single | Three | PhaseDC.

(** ["1C"], ["2C"], ["3C"], ["4C"]. *)
Inductive Cores : Type := Cores1C | Cores2C | Cores3C | Cores4C.

(** The protective-device annotation.  The source formats it into one string;
    the constructors keep the fields that are formatted:
    [f"AS/NZS 60898, C-curve, {rating}A, {volts}V AC, {poles}P"] and
    [f"AS/NZS 60947.2, {rating}A, {volts}V DC"]. *)
Inductive BreakerSpec : Type :=
| AS_NZS_60898_C_curve (rating : Z) (volts : Q) (poles : Z)
| AS_NZS_60947_2 (rating : Z) (volts : Q).

(** The electrical configuration resolved by the first block of
    [calculate_requirements]. *)
Record Configuration : Type := mkConfiguration {
  voltage : Q;
  phase : PhaseType;
  cores : Cores;
  current : Q;
  ac_current : Q
}.

(** ** [electrical_specs.py] *)

Module ElectricalSpecs.

(** [VOLTAGE[charger_type]]. *)
Definition VOLTAGE (charger_type : ChargerType) : list (Q * Q) :=
  match charger_type with
  | AC => [(7, 230); (22, 400)]
  | DC => [(25, 500); (50, 500); (75, 500); (100, 500); (120, 500);
           (150, 500); (300, 750); (350, 750)]
  end.

Definition STANDARD_BREAKERS : list Z :=
  [6; 10; 16; 20; 25; 32; 40; 50; 63; 80; 100; 125; 160; 200;
   250; 315; 400; 500; 630; 800; 1000; 1200; 1600; 2000]%Z.

(** [CABLE_CAPACITY[cores]]: cross-section (mm2) to ampacity (A). *)
Definition CABLE_CAPACITY (c : Cores) : list (Q * Q) :=
  match c with
  | Cores1C =>
      [(1.5, 17.5); (2.5, 23); (4, 30); (6, 39); (10, 53); (16, 70); (25, 92);
       (35, 115); (50, 142); (70, 179); (95, 217); (120, 254); (150, 292);
       (185, 336); (240, 392); (300, 451); (400, 527); (500, 600); (630, 696)]
  | Cores2C =>
      [(1.5, 15); (2.5, 20); (4, 26); (6, 34); (10, 46); (16, 61); (25, 80);
       (35, 99); (50, 123); (70, 155); (95, 189); (120, 221); (150, 255);
       (185, 292); (240, 352); (300, 409); (400, 489); (500, 569); (630, 674)]
  | Cores3C =>
      [(1.5, 13.5); (2.5, 17.5); (4, 23); (6, 30); (10, 40); (16, 53);
       (25, 70); (35, 87); (50, 108); (70, 136); (95, 166); (120, 194);
       (150, 225); (185, 260); (240, 310); (300, 360); (400, 429); (500, 495);
       (630, 588)]
  | Cores4C =>
      [(1.5, 12); (2.5, 16); (4, 21); (6, 27); (10, 37); (16, 49); (25, 64);
       (35, 80); (50, 99); (70, 125); (95, 152); (120, 178); (150, 207);
       (185, 240); (240, 287); (300, 334); (400, 400); (500, 464); (630, 555)]
  end.

(** One entry of [MSB_CONFIGS]: ["Amps"], ["Dimensions (mm)"], ["Busbar (A)"]. *)
Record MsbConfig : Type := mkMsbConfig {
  Amps : Z;
  Dimensions_mm : string;
  Busbar_A : Z
}.

Definition MSB_CONFIGS : list MsbConfig :=
  [ mkMsbConfig 100 "300x200x150" 100;
    mkMsbConfig 200 "400x250x200" 200;
    mkMsbConfig 400 "600x300x250" 400;
    mkMsbConfig 600 "800x400x300" 600;
    mkMsbConfig 800 "1000x500x350" 800;
    mkMsbConfig 1000 "1200x600x400" 1000;
    mkMsbConfig 1200 "1500x700x450" 1200;
    mkMsbConfig 1600 "1800x800x500" 1600;
    mkMsbConfig 2000 "2000x1000x600" 2000;
    mkMsbConfig 2500 "2200x1200x700" 2500;
    mkMsbConfig 3000 "2500x1500x800" 3000 ].

(** The dict returned by [calculate_requirements], one field per key.
    ["Cable Size"] is formatted as [f"{cable_size} mm2"] and ["Cable Type"]
    as [f"{cable_type} PVC/XLPE Cu"]; the fields keep what is formatted. *)
Record CircuitDesign : Type := mkCircuitDesign {
  Voltage_V : Q;
  Phase : PhaseType;
  Full_Load_Current_A : Q;
  Derated_Current_A : Q;
  AC_Input_Current_A : Q;
  Derated_AC_Current_A : Q;
  Breaker_Size_A : Z;
  Breaker_Specs : BreakerSpec;
  Cable_Size : Q;
  Cable_Type : Cores;
  Cable_Capacity_A : Q;
  Cable_Configuration : Cores;
  Power_kW : Q;
  Charger_Type : ChargerType
}.

(** Lines 49-73: voltage, phase, cores, load current and AC input current. *)
Definition configuration (charger_type : ChargerType) (capacity : Q)
  : py Configuration :=
  match charger_type with
  | AC =>
      if Qeq_bool capacity 7 then
        voltage <- getitem (VOLTAGE AC) 7 ;;
        current <- truediv (capacity * 1000) voltage ;;
        Return (mkConfiguration voltage Single Cores2C current current)
      else
        voltage <- getitem (VOLTAGE AC) 22 ;;
        current <- truediv (capacity * 1000) (voltage * sqrt3) ;;
        Return (mkConfiguration voltage Three Cores4C current current)
  | DC =>
      voltage <- getitem (VOLTAGE DC) capacity ;;
      current <- truediv (capacity * 1000) voltage ;;
      ac_power <- truediv capacity (0.95 * 0.95) ;;
      ac_current <- truediv (ac_power * 1000) (400 * sqrt3) ;;
      Return (mkConfiguration voltage PhaseDC Cores2C current ac_current)
  end.

(** Lines 76-77: the 125% factor for continuous loads. *)
Definition derated_current (cfg : Configuration) : Q := current cfg * 1.25.
Definition derated_ac_current (cfg : Configuration) : Q :=
  ac_current cfg * 1.25.

(** Lines 101-107. *)
Definition breaker_spec (charger_type : ChargerType) (capacity : Q)
    (breaker_size : Z) (voltage : Q) : BreakerSpec :=
  match charger_type with
  | AC =>
      if Qeq_bool capacity 7
      then AS_NZS_60898_C_curve breaker_size 240 1
      else AS_NZS_60898_C_curve breaker_size 415 3
  | DC => AS_NZS_60947_2 breaker_size voltage
  end.

Definition calculate_requirements (charger_type : ChargerType) (capacity : Q)
    (quantity : Z) : py (option CircuitDesign) :=
  cfg <- configuration charger_type capacity ;;
  let derated_current := derated_current cfg in
  let derated_ac_current := derated_ac_current cfg in
  match next_rating STANDARD_BREAKERS derated_current with
  | None => Return None
  | Some breaker_size =>
      if falsy_Z breaker_size then Return None else
      let cable_type := cores cfg in
      match next_cable (CABLE_CAPACITY cable_type) breaker_size with
      | None => Return None
      | Some (cable_size, cable_capacity) =>
          if falsy_Q cable_size then Return None else
          Return (Some {|
            Voltage_V := voltage cfg;
            Phase := phase cfg;
            Full_Load_Current_A := round (current cfg) 1;
            Derated_Current_A := round derated_current 1;
            AC_Input_Current_A :=
              match charger_type with
              | DC => round (ac_current cfg) 1
              | AC => round (current cfg) 1
              end;
            Derated_AC_Current_A :=
              match charger_type with
              | DC => round derated_ac_current 1
              | AC => round derated_current 1
              end;
            Breaker_Size_A := breaker_size;
            Breaker_Specs :=
              breaker_spec charger_type capacity breaker_size (voltage cfg);
            Cable_Size := cable_size;
            Cable_Type := cable_type;
            Cable_Capacity_A := cable_capacity;
            Cable_Configuration := cores cfg;
            Power_kW := capacity;
            Charger_Type := charger_type
          |})
      end
  end.

(** An element of [st.session_state.chargers]: the dict
    [{"Type": .., "Capacity (kW)": .., "Quantity": .., **result}]. *)
Record Charger : Type := mkCharger {
  Type_ : ChargerType;
  Capacity_kW : Q;
  Quantity : Z;
  result : CircuitDesign
}.

(** The dict returned by [calculate_msb].  ["MSB Configuration"] is
    [f"{Amps}A Main Switchboard"]; the field keeps [Amps]. *)
Record DistributionDesign : Type := mkDistributionDesign {
  Total_Connected_Load_kW : Q;
  Total_Derated_AC_Current_A : Q;
  Diversification_Factor : Q;
  Diversified_Current_A : Q;
  Main_Breaker_Size_A : Z;
  Recommended_MSB_Size_A : Z;
  Busbar_Rating_A : Z;
  MSB_Dimensions : string;
  MSB_Configuration : Z
}.

(** Lines 128-137: the accumulating loop. *)
Definition total_derated_ac_current (chargers : list Charger) : Q :=
  fold_left
    (fun total charger =>
       let current_per_charger := Derated_AC_Current_A (result charger) in
       total + current_per_charger * inject_Z (Quantity charger))
    chargers 0.

Definition total_power (chargers : list Charger) : Q :=
  fold_left
    (fun total charger =>
       total + Power_kW (result charger) * inject_Z (Quantity charger))
    chargers 0.

Definition diversity_factor : Q := 0.9.

Definition diversified_current (chargers : list Charger) : Q :=
  total_derated_ac_current chargers * diversity_factor.

(** [next((msb for msb in MSB_CONFIGS if msb["Busbar (A)"] >= x), None)].
    An entry is a non-empty dict, so [not msb_config] holds of [None] only. *)
Definition next_msb (x : Q) : option MsbConfig :=
  find (fun msb => Qle_bool x (inject_Z (Busbar_A msb))) MSB_CONFIGS.

Definition calculate_msb (chargers : list Charger)
  : py (option DistributionDesign) :=
  let total_derated_ac_current := total_derated_ac_current chargers in
  let total_power := total_power chargers in
  let diversified_current := total_derated_ac_current * diversity_factor in
  match next_rating STANDARD_BREAKERS diversified_current with
  | None => Return None
  | Some main_breaker =>
      if falsy_Z main_breaker then Return None else
      match next_msb diversified_current with
      | None => Return None
      | Some msb_config =>
          let busbar_size := (ceil (diversified_current / 100) * 100)%Z in
          Return (Some {|
            Total_Connected_Load_kW := round total_power 1;
            Total_Derated_AC_Current_A := round total_derated_ac_current 1;
            Diversification_Factor := diversity_factor;
            Diversified_Current_A := round diversified_current 1;
            Main_Breaker_Size_A := main_breaker;
            Recommended_MSB_Size_A := Amps msb_config;
            Busbar_Rating_A := busbar_size;
            MSB_Dimensions := Dimensions_mm msb_config;
            MSB_Configuration := Amps msb_config
          |})
      end
  end.

(** Lines 194-204, the "Add Charger" button: the list after the click and
    whether [st.error] was shown.  A returned dict is never empty, so
    [if result] tells a design from [None]. *)
Definition add_charger (chargers : list Charger) (charger_type : ChargerType)
    (capacity : Q) (quantity : Z) : py (list Charger * bool) :=
  result <- calculate_requirements charger_type capacity quantity ;;
  match result with
  | Some result =>
      Return (chargers ++ [mkCharger charger_type capacity quantity result],
              false)
  | None => Return (chargers, true)
  end.

(** Lines 225-227, the "Clear All Chargers" button. *)
Definition clear_chargers (chargers : list Charger) : list Charger := [].

End ElectricalSpecs.

(** ** [charger_specs.py] *)

Module ChargerSpecs.

(** [st.session_state.calculation_params]. *)
Record CalculationParameters : Type := mkCalculationParameters {
  safety_factor : Q;
  diversity_factor : Q;
  dc_efficiency : Q;
  power_factor : Q;
  ac_voltage : Q;
  dc_voltage : Q
}.

(** The values set by [initialize_session_state]. *)
Definition default_params : CalculationParameters :=
  {| safety_factor := 1.25;
     diversity_factor := 0.9;
     dc_efficiency := 0.95;
     power_factor := 0.95;
     ac_voltage := 400;
     dc_voltage := 500 |}.

Definition STANDARD_BREAKERS : list Z :=
  [6; 10; 16; 20; 25; 32; 40; 50; 63; 80; 100; 125; 160; 200;
   250; 315; 400; 500; 630; 800; 1000; 1200; 1600; 2000]%Z.

Definition CABLE_CAPACITY (c : Cores) : list (Q * Q) :=
  match c with
  | Cores1C =>
      [(1.5, 17.5); (2.5, 23); (4, 30); (6, 39); (10, 53); (16, 70); (25, 92);
       (35, 115); (50, 142); (70, 179); (95, 217); (120, 254); (150, 292);
       (185, 336); (240, 392); (300, 451); (400, 527); (500, 600); (630, 696)]
  | Cores2C =>
      [(1.5, 15); (2.5, 20); (4, 26); (6, 34); (10, 46); (16, 61); (25, 80);
       (35, 99); (50, 123); (70, 155); (95, 189); (120, 221); (150, 255);
       (185, 292); (240, 352); (300, 409); (400, 489); (500, 569); (630, 674)]
  | Cores3C =>
      [(1.5, 13.5); (2.5, 17.5); (4, 23); (6, 30); (10, 40); (16, 53);
       (25, 70); (35, 87); (50, 108); (70, 136); (95, 166); (120, 194);
       (150, 225); (185, 260); (240, 310); (300, 360); (400, 429); (500, 495);
       (630, 588)]
  | Cores4C =>
      [(1.5, 12); (2.5, 16); (4, 21); (6, 27); (10, 37); (16, 49); (25, 64);
       (35, 80); (50, 99); (70, 125); (95, 152); (120, 178); (150, 207);
       (185, 240); (240, 287); (300, 334); (400, 400); (500, 464); (630, 555)]
  end.

(** One entry of [MSB_CONFIGS]: ["Amps"], ["Dimensions"], ["Busbar"]. *)
Record MsbConfig : Type := mkMsbConfig {
  Amps : Z;
  Dimensions : string;
  Busbar : Z
}.

Definition MSB_CONFIGS : list MsbConfig :=
  [ mkMsbConfig 100 "300x200x150" 100;
    mkMsbConfig 200 "400x250x200" 200;
    mkMsbConfig 400 "600x300x250" 400;
    mkMsbConfig 600 "800x400x300" 600;
    mkMsbConfig 800 "1000x500x350" 800;
    mkMsbConfig 1000 "1200x600x400" 1000;
    mkMsbConfig 1200 "1500x700x450" 1200;
    mkMsbConfig 1600 "1800x800x500" 1600;
    mkMsbConfig 2000 "2000x1000x600" 2000;
    mkMsbConfig 2500 "2200x1200x700" 2500;
    mkMsbConfig 3000 "2500x1500x800" 3000 ].

(** The dict returned by [calculate_requirements], one field per key.
    ["Cable Type"] is [f"{cores} PVC/XLPE Cu"]; the field keeps [cores]. *)
Record CircuitDesign : Type := mkCircuitDesign {
  Voltage_V : Q;
  Phase : PhaseType;
  Full_Load_Current_A : Q;
  Derated_Current_A : Q;
  AC_Input_Current_A : Q;
  Derated_AC_Current_A : Q;
  Breaker_Size_A : Z;
  Breaker_Specs : BreakerSpec;
  Cable_Size_mm2 : Q;
  Cable_Type : Cores;
  Cable_Capacity_A : Q;
  Cable_Configuration : Cores;
  Power_kW : Q;
  Charger_Type : ChargerType
}.

(** Lines 59-77: voltage, phase, cores, load current and AC input current. *)
Definition configuration (charger_type : ChargerType) (capacity : Q)
    (params : CalculationParameters) : py Configuration :=
  match charger_type with
  | AC =>
      if Qeq_bool capacity 7 then
        let voltage := 230 in
        current <- truediv (capacity * 1000) voltage ;;
        Return (mkConfiguration voltage Single Cores2C current current)
      else
        let voltage := ac_voltage params in
        current <- truediv (capacity * 1000) (voltage * sqrt3) ;;
        Return (mkConfiguration voltage Three Cores4C current current)
  | DC =>
      let voltage := dc_voltage params in
      current <- truediv (capacity * 1000) voltage ;;
      ac_power <- truediv capacity (dc_efficiency params * power_factor params) ;;
      ac_current <- truediv (ac_power * 1000) (ac_voltage params * sqrt3) ;;
      Return (mkConfiguration voltage PhaseDC Cores2C current ac_current)
  end.

(** Lines 79-80. *)
Definition derated_current (cfg : Configuration)
    (params : CalculationParameters) : Q :=
  current cfg * safety_factor params.

Definition derated_ac_current (cfg : Configuration)
    (params : CalculationParameters) : Q :=
  ac_current cfg * safety_factor params.

(** Lines 91-97. *)
Definition breaker_spec (charger_type : ChargerType) (capacity : Q)
    (breaker_size : Z) (voltage : Q) (params : CalculationParameters)
  : BreakerSpec :=
  match charger_type with
  | AC =>
      if Qeq_bool capacity 7
      then AS_NZS_60898_C_curve breaker_size 240 1
      else AS_NZS_60898_C_curve breaker_size (ac_voltage params) 3
  | DC => AS_NZS_60947_2 breaker_size voltage
  end.

Definition calculate_requirements (charger_type : ChargerType) (capacity : Q)
    (quantity : Z) (params : CalculationParameters)
  : py (option CircuitDesign) :=
  cfg <- configuration charger_type capacity params ;;
  let derated_current := derated_current cfg params in
  let derated_ac_current := derated_ac_current cfg params in
  match next_rating STANDARD_BREAKERS derated_current with
  | None => Return None
  | Some breaker_size =>
      if falsy_Z breaker_size then Return None else
      match option_map fst
              (next_cable (CABLE_CAPACITY (cores cfg)) breaker_size) with
      | None => Return None
      | Some cable_size =>
          if falsy_Q cable_size then Return None else
          cable_capacity <- getitem (CABLE_CAPACITY (cores cfg)) cable_size ;;
          Return (Some {|
            Voltage_V := voltage cfg;
            Phase := phase cfg;
            Full_Load_Current_A := round (current cfg) 1;
            Derated_Current_A := round derated_current 1;
            AC_Input_Current_A := round (ac_current cfg) 1;
            Derated_AC_Current_A := round derated_ac_current 1;
            Breaker_Size_A := breaker_size;
            Breaker_Specs :=
              breaker_spec charger_type capacity breaker_size (voltage cfg)
                params;
            Cable_Size_mm2 := cable_size;
            Cable_Type := cores cfg;
            Cable_Capacity_A := cable_capacity;
            Cable_Configuration := cores cfg;
            Power_kW := capacity;
            Charger_Type := charger_type
          |})
      end
  end.

(** An element of [st.session_state.chargers]: the dict
    [{"Type": .., "Capacity (kW)": .., "Quantity": .., **result}]. *)
Record Charger : Type := mkCharger {
  Type_ : ChargerType;
  Capacity_kW : Q;
  Quantity : Z;
  result : CircuitDesign
}.

(** The dict returned by [calculate_msb].  ["MSB Configuration"] is
    [f"{Amps}A Main Switchboard"]; the field keeps [Amps]. *)
Record DistributionDesign : Type := mkDistributionDesign {
  Total_Connected_Load_kW : Q;
  Total_Derated_AC_Current_A : Q;
  Diversification_Factor : Q;
  Diversified_Current_A : Q;
  Main_Breaker_Size_A : Z;
  Recommended_MSB_Size_A : Z;
  Busbar_Rating_A : Z;
  MSB_Dimensions : string;
  MSB_Configuration : Z
}.

(** [sum(... for x in xs)]: Python adds left to right, starting from 0. *)
Definition sum {A : Type} (f : A -> Q) (xs : list A) : Q :=
  fold_left (fun acc x => acc + f x) xs 0.

(** Lines 117-121. *)
Definition total_derated_ac_current (chargers : list Charger) : Q :=
  sum (fun charger =>
         Derated_AC_Current_A (result charger) * inject_Z (Quantity charger))
      chargers.

Definition total_power (chargers : list Charger) : Q :=
  sum (fun charger =>
         Power_kW (result charger) * inject_Z (Quantity charger))
      chargers.

Definition diversified_current (chargers : list Charger)
    (params : CalculationParameters) : Q :=
  total_derated_ac_current chargers * diversity_factor params.

(** [next((msb for msb in MSB_CONFIGS if msb["Busbar"] >= x), None)].
    An entry is a non-empty dict, so [not msb_config] holds of [None] only. *)
Definition next_msb (x : Q) : option MsbConfig :=
  find (fun msb => Qle_bool x (inject_Z (Busbar msb))) MSB_CONFIGS.

Definition calculate_msb (chargers : list Charger)
    (params : CalculationParameters) : py (option DistributionDesign) :=
  let total_derated_ac_current := total_derated_ac_current chargers in
  let total_power := total_power chargers in
  let diversified_current :=
    total_derated_ac_current * diversity_factor params in
  match next_rating STANDARD_BREAKERS diversified_current with
  | None => Return None
  | Some main_breaker =>
      if falsy_Z main_breaker then Return None else
      match next_msb diversified_current with
      | None => Return None
      | Some msb_config =>
          let busbar_size := (ceil (diversified_current / 100) * 100)%Z in
          Return (Some {|
            Total_Connected_Load_kW := round total_power 1;
            Total_Derated_AC_Current_A := round total_derated_ac_current 1;
            Diversification_Factor := diversity_factor params;
            Diversified_Current_A := round diversified_current 1;
            Main_Breaker_Size_A := main_breaker;
            Recommended_MSB_Size_A := Amps msb_config;
            Busbar_Rating_A := busbar_size;
            MSB_Dimensions := Dimensions msb_config;
            MSB_Configuration := Amps msb_config
          |})
      end
  end.

(** [get_incomer_cable_size(msb_result)]. *)
Definition get_incomer_cable_size (msb_result : DistributionDesign) : Q :=
  let current := Diversified_Current_A msb_result in
  if Qle_bool current 250 then 120
  else if Qle_bool current 400 then 185
  else if Qle_bool current 600 then 300
  else if Qle_bool current 800 then 400
  else 500.

(** ['MCCB'], ['MCB']. *)
Inductive BreakerType : Type := MCCB | MCB.

(** ['AS/NZS 60947.2'], ['AS/NZS 60898']. *)
Inductive BreakerStandard : Type := AS_NZS_60947_2_std | AS_NZS_60898_std.

(** The node identifiers ['TR'], ['EVDB'], [f'CB_{i}'], [f'CH_{i}'] and
    ['LEGEND']. *)
Inductive NodeId : Type :=
| TR
| EVDB
| CB (i : nat)
| CH (i : nat)
| LEGEND.

(** The labels of [generate_sld].  The source formats each into an HTML
    table or a line of text; the constructors keep the values that are
    formatted. *)
Inductive Label : Type :=
| trafo_label (trafo_rating : Z)
| evdb_label (main_breaker : Z) (busbar : Z)
| incomer_label (cable_size : Q) (current_capacity : Q)
| breaker_label (breaker_type : BreakerType) (breaker_size : Z)
    (breaker_standard : BreakerStandard)
| charger_label (number : nat) (power : Q) (charger_type : ChargerType)
    (voltage : Q)
| cable_info (cable_size : Q) (cable_type : Cores) (cable_capacity : Q)
| no_label
| legend.

(** One call of [dot.node] or [dot.edge]. *)
Inductive Statement : Type :=
| node (name : NodeId) (label : Label)
| edge (tail_name head_name : NodeId) (label : Label).

(** Lines 155-156: the transformer rating in kVA. *)
Definition trafo_rating (msb_result : DistributionDesign)
    (params : CalculationParameters) : py Z :=
  total_kva <- truediv (Total_Connected_Load_kW msb_result)
                 (power_factor params) ;;
  Return (Z.max (ceil (total_kva / 100) * 100) 500).

(** Lines 190-191. *)
Definition breaker_type (charger : Charger) : BreakerType :=
  if (100 <? Breaker_Size_A (result charger))%Z then MCCB else MCB.

Definition breaker_standard (charger : Charger) : BreakerStandard :=
  match Charger_Type (result charger) with
  | DC => AS_NZS_60947_2_std
  | AC => AS_NZS_60898_std
  end.

(** Lines 185-214: the statements of the loop over [enumerate(chargers)],
    from index [i] on. *)
Fixpoint charger_circuits (i : nat) (chargers : list Charger)
  : list Statement :=
  match chargers with
  | [] => []
  | charger :: chargers' =>
      let breaker_id := CB i in
      let charger_id := CH i in
      [ node breaker_id
          (breaker_label (breaker_type charger)
             (Breaker_Size_A (result charger)) (breaker_standard charger));
        node charger_id
          (charger_label (i + 1) (Power_kW (result charger))
             (Charger_Type (result charger)) (Voltage_V (result charger)));
        edge EVDB breaker_id no_label;
        edge breaker_id charger_id
          (cable_info (Cable_Size_mm2 (result charger))
             (Cable_Type (result charger))
             (Cable_Capacity_A (result charger))) ]
      ++ charger_circuits (S i) chargers'
  end.

(** [generate_sld(chargers, msb_result, params)]: the body of the graph, in
    the order of the calls. *)
Definition generate_sld (chargers : list Charger)
    (msb_result : DistributionDesign) (params : CalculationParameters)
  : py (list Statement) :=
  trafo_rating <- trafo_rating msb_result params ;;
  let cable_size := get_incomer_cable_size msb_result in
  current_capacity <- getitem (CABLE_CAPACITY Cores4C) cable_size ;;
  Return
    ([ node TR (trafo_label trafo_rating);
       node EVDB
         (evdb_label (Main_Breaker_Size_A msb_result)
            (Busbar_Rating_A msb_result));
       edge TR EVDB (incomer_label cable_size current_capacity) ]
     ++ charger_circuits 0 chargers
     ++ [ node LEGEND legend ]).

(** Lines 297-312, the "Add Charger" button, where [quantity = 1]: the list
    after the click and whether [st.error] was shown. *)
Definition add_charger (chargers : list Charger) (charger_type : ChargerType)
    (capacity : Q) (params : CalculationParameters)
  : py (list Charger * bool) :=
  let quantity := 1%Z in
  result <- calculate_requirements charger_type capacity quantity params ;;
  match result with
  | Some result =>
      Return (chargers ++ [mkCharger charger_type capacity quantity result],
              false)
  | None => Return (chargers, true)
  end.

(** [remove_charger(index)] and the "Remove" button, lines 337-339:
    [st.session_state.chargers.pop(index)]. *)
Definition remove_charger (chargers : list Charger) (index : Z)
  : pop_result Charger :=
  pop chargers index.

(** Lines 342-344, the "Clear All Chargers" button. *)
Definition clear_chargers (chargers : list Charger) : list Charger := [].



End ChargerSpecs.

(** ** The input domain *)

(** The capacities offered by [st.selectbox("Capacity (kW)", ...)], the same
    in both files. *)
Definition AC_CAPACITIES : list Q := [7; 22].
Definition DC_CAPACITIES : list Q := [25; 50; 75; 100; 120; 150; 300; 350].

(** Section 3 of the specification: every calculation parameter is a
    positive number. *)
Definition valid_params (params : ChargerSpecs.CalculationParameters) : Prop :=
  0 < ChargerSpecs.safety_factor params /\
  0 < ChargerSpecs.diversity_factor params /\
  0 < ChargerSpecs.dc_efficiency params /\
  0 < ChargerSpecs.power_factor params /\
  0 < ChargerSpecs.ac_voltage params /\
  0 < ChargerSpecs.dc_voltage params.

(** Section 4.1, step 2 of the specification: the AC-side input current of a
    DC charger. *)
Definition spec_ac_input_current (capacity : Q)
    (params : ChargerSpecs.CalculationParameters) : Q :=
  capacity / (ChargerSpecs.dc_efficiency params * ChargerSpecs.power_factor params)
  * 1000 / (ChargerSpecs.ac_voltage params * sqrt3).

(** Section 4.1, step 1 of the specification: the load current of a DC
    charger. *)
Definition spec_dc_current (capacity : Q)
    (params : ChargerSpecs.CalculationParameters) : Q :=
  capacity * 1000 / ChargerSpecs.dc_voltage params.

(** A list entry as the page builds it: the design returned by a sizing call
    for a non-negative capacity, with a non-negative quantity.  In
    [charger_specs.py] the parameters of that call are the ones in force when
    the charger was added. *)
Definition electrical_entry (charger : ElectricalSpecs.Charger) : Prop :=
  (0 <= ElectricalSpecs.Quantity charger)%Z /\
  exists charger_type capacity quantity,
    0 <= capacity /\
    ElectricalSpecs.calculate_requirements charger_type capacity quantity
      = Return (Some (ElectricalSpecs.result charger)).

Definition charger_entry (charger : ChargerSpecs.Charger) : Prop :=
  (0 <= ChargerSpecs.Quantity charger)%Z /\
  exists charger_type capacity quantity params,
    0 <= capacity /\
    valid_params params /\
    ChargerSpecs.calculate_requirements charger_type capacity quantity params
      = Return (Some (ChargerSpecs.result charger)).

(** A zero-valued design in the sense of section 4.2 of the specification:
    no load, no current, no breaker and no board. *)
Definition electrical_zero_valued (d : ElectricalSpecs.DistributionDesign)
  : Prop :=
  ElectricalSpecs.Total_Connected_Load_kW d == 0 /\
  ElectricalSpecs.Total_Derated_AC_Current_A d == 0 /\
  ElectricalSpecs.Diversified_Current_A d == 0 /\
  ElectricalSpecs.Main_Breaker_Size_A d = 0%Z /\
  ElectricalSpecs.Recommended_MSB_Size_A d = 0%Z /\
  ElectricalSpecs.Busbar_Rating_A d = 0%Z.

Definition charger_zero_valued (d : ChargerSpecs.DistributionDesign) : Prop :=
  ChargerSpecs.Total_Connected_Load_kW d == 0 /\
  ChargerSpecs.Total_Derated_AC_Current_A d == 0 /\
  ChargerSpecs.Diversified_Current_A d == 0 /\
  ChargerSpecs.Main_Breaker_Size_A d = 0%Z /\
  ChargerSpecs.Recommended_MSB_Size_A d = 0%Z /\
  ChargerSpecs.Busbar_Rating_A d = 0%Z.

(** ** Orders on the tables *)

(** The ampacity tables are read in increasing cross-section. *)
Definition key_lt (a b : Q * Q) : Prop := fst a < fst b.

(** The busbar ratings of [MSB_CONFIGS], in catalog order; they are the same
    in both files. *)
Definition BUSBARS : list Z :=
  [100; 200; 400; 600; 800; 1000; 1200; 1600; 2000; 2500; 3000]%Z.

(** ** The settings panel and the session *)

(** The bounds of the six [st.number_input] widgets of [charger_specs.py],
    lines 250-284. *)
Definition ui_params (params : ChargerSpecs.CalculationParameters) : Prop :=
  1 <= ChargerSpecs.safety_factor params <= 2 /\
  0.1 <= ChargerSpecs.diversity_factor params <= 1 /\
  0.8 <= ChargerSpecs.dc_efficiency params <= 1 /\
  0.8 <= ChargerSpecs.power_factor params <= 1 /\
  100 <= ChargerSpecs.ac_voltage params <= 500 /\
  100 <= ChargerSpecs.dc_voltage params <= 1000.

(** The choices of the radio button and of the capacity select box. *)
Definition on_menu (charger_type : ChargerType) (capacity : Q) : Prop :=
  match charger_type with
  | AC => In capacity AC_CAPACITIES
  | DC => In capacity DC_CAPACITIES
  end.

(** The lists of [electrical_specs.py] a session can hold: the empty list,
    and what the "Add Charger" and "Clear All Chargers" buttons make of a
    list; the quantity input has [min_value=1]. *)
Inductive electrical_session : list ElectricalSpecs.Charger -> Prop :=
| electrical_session_init : electrical_session []
| electrical_session_add chargers charger_type capacity quantity chargers' shown :
    electrical_session chargers ->
    on_menu charger_type capacity ->
    (1 <= quantity)%Z ->
    ElectricalSpecs.add_charger chargers charger_type capacity quantity
      = Return (chargers', shown) ->
    electrical_session chargers'
| electrical_session_clear chargers :
    electrical_session chargers ->
    electrical_session (ElectricalSpecs.clear_chargers chargers).

(** The lists of [charger_specs.py] a session can hold; the parameters may
    differ from one click to the next. *)
Inductive charger_session : list ChargerSpecs.Charger -> Prop :=
| charger_session_init : charger_session []
| charger_session_add chargers charger_type capacity params chargers' shown :
    charger_session chargers ->
    on_menu charger_type capacity ->
    ui_params params ->
    ChargerSpecs.add_charger chargers charger_type capacity params
      = Return (chargers', shown) ->
    charger_session chargers'
| charger_session_remove chargers index x chargers' :
    charger_session chargers ->
    ChargerSpecs.remove_charger chargers index = Popped x chargers' ->
    charger_session chargers'
| charger_session_clear chargers :
    charger_session chargers ->
    charger_session (ChargerSpecs.clear_chargers chargers).

(** A list entry whose ["Type"], ["Capacity (kW)"] and design belong
    together. *)
Definition electrical_consistent (charger : ElectricalSpecs.Charger) : Prop :=
  ElectricalSpecs.calculate_requirements (ElectricalSpecs.Type_ charger)
    (ElectricalSpecs.Capacity_kW charger) (ElectricalSpecs.Quantity charger)
  = Return (Some (ElectricalSpecs.result charger)).

(** The largest breaker a cable of the given core configuration can follow:
    the largest ladder member within the largest ampacity of the table. *)
Definition largest_breaker_with_cable (c : Cores) : Q :=
  match c with
  | Cores1C => 630
  | Cores2C => 630
  | Cores3C => 500
  | Cores4C => 500
  end.

(** Two designs, one from each file, with the same figures; the
    protective-device annotation is left aside. *)
Definition same_figures (e : ElectricalSpecs.CircuitDesign)
    (c : ChargerSpecs.CircuitDesign) : Prop :=
  ElectricalSpecs.Voltage_V e = ChargerSpecs.Voltage_V c /\
  ElectricalSpecs.Phase e = ChargerSpecs.Phase c /\
  ElectricalSpecs.Full_Load_Current_A e = ChargerSpecs.Full_Load_Current_A c /\
  ElectricalSpecs.Derated_Current_A e = ChargerSpecs.Derated_Current_A c /\
  ElectricalSpecs.AC_Input_Current_A e = ChargerSpecs.AC_Input_Current_A c /\
  ElectricalSpecs.Derated_AC_Current_A e
    = ChargerSpecs.Derated_AC_Current_A c /\
  ElectricalSpecs.Breaker_Size_A e = ChargerSpecs.Breaker_Size_A c /\
  ElectricalSpecs.Cable_Size e = ChargerSpecs.Cable_Size_mm2 c /\
  ElectricalSpecs.Cable_Type e = ChargerSpecs.Cable_Type c /\
  ElectricalSpecs.Cable_Capacity_A e = ChargerSpecs.Cable_Capacity_A c /\
  ElectricalSpecs.Cable_Configuration e = ChargerSpecs.Cable_Configuration c /\
  ElectricalSpecs.Power_kW e = ChargerSpecs.Power_kW c /\
  ElectricalSpecs.Charger_Type e = ChargerSpecs.Charger_Type c.

(** Order of the ampacity tables by cross-section and by ampacity at once. *)
Definition size_and_ampacity_lt (a b : Q * Q) : Prop :=
  fst a < fst b /\ snd a < snd b.

(** The standard named by a protective-device annotation. *)
Definition standard_of (spec : BreakerSpec) : ChargerSpecs.BreakerStandard :=
  match spec with
  | AS_NZS_60898_C_curve _ _ _ => ChargerSpecs.AS_NZS_60898_std
  | AS_NZS_60947_2 _ _ => ChargerSpecs.AS_NZS_60947_2_std
  end.

Definition rating_of (spec : BreakerSpec) : Z :=
  match spec with
  | AS_NZS_60898_C_curve rating _ _ => rating
  | AS_NZS_60947_2 rating _ => rating
  end.

(** The nodes a list of statements declares, and its edges. *)
Definition declared (sld : list ChargerSpecs.Statement)
  : list ChargerSpecs.NodeId :=
  flat_map (fun st => match st with
                      | ChargerSpecs.node name _ => [name]
                      | ChargerSpecs.edge _ _ _ => []
                      end) sld.

Definition edges (sld : list ChargerSpecs.Statement)
  : list (ChargerSpecs.NodeId * ChargerSpecs.NodeId) :=
  flat_map (fun st => match st with
                      | ChargerSpecs.node _ _ => []
                      | ChargerSpecs.edge a b _ => [(a, b)]
                      end) sld.

(** * Properties *)

(** ** The first match of a search through an ordered table *)

Section FirstMatch.

Context {A : Type} (lt : A -> A -> Prop).
Hypothesis lt_asym : forall a b, lt a b -> lt b a -> False.

Lemma find_first_minimal (f : A -> bool) (l : list A) (x : A) :
  StronglySorted lt l ->
  find f l = Some x ->
  forall y, In y l -> lt y x -> f y = false.
Proof.
  induction 1 as [| a l Hs IH Ha]; simpl; [discriminate |].
  destruct (f a) eqn:Efa.
  - intros [= <-] y [<- | Hy] Hlt.
    + exfalso; eauto.
    + exfalso. rewrite Forall_forall in Ha. eauto.
  - intros Hfind y [<- | Hy] Hlt; [assumption | now apply IH].
Qed.

End FirstMatch.

Lemma Zlt_asym (a b : Z) : (a < b)%Z -> (b < a)%Z -> False.
Proof. lia. Qed.

Lemma key_lt_asym (a b : Q * Q) : key_lt a b -> key_lt b a -> False.
Proof. unfold key_lt; intros H1 H2; lra. Qed.

Ltac sorted_by_computation :=
  repeat (first [ apply SSorted_nil
                | apply SSorted_cons
                | apply Forall_nil
                | apply Forall_cons
                | reflexivity ]).

Lemma ladder_sorted : StronglySorted Z.lt ElectricalSpecs.STANDARD_BREAKERS.
Proof. unfold ElectricalSpecs.STANDARD_BREAKERS. sorted_by_computation. Qed.

Lemma ladder_positive b :
  In b ElectricalSpecs.STANDARD_BREAKERS -> (6 <= b <= 2000)%Z.
Proof.
  unfold ElectricalSpecs.STANDARD_BREAKERS; simpl; intros H.
  repeat (destruct H as [<- | H]; [lia |]). contradiction.
Qed.

Lemma cable_table_sorted c :
  StronglySorted key_lt (ElectricalSpecs.CABLE_CAPACITY c).
Proof. destruct c; unfold ElectricalSpecs.CABLE_CAPACITY; sorted_by_computation. Qed.

(** [sorted(...)] leaves each ampacity table as the source lists it. *)
Lemma sorted_cable_table c :
  sorted (ElectricalSpecs.CABLE_CAPACITY c) = ElectricalSpecs.CABLE_CAPACITY c.
Proof. destruct c; vm_compute; reflexivity. Qed.

(** The two files carry the same tables. *)
Lemma same_ladder :
  ChargerSpecs.STANDARD_BREAKERS = ElectricalSpecs.STANDARD_BREAKERS.
Proof. reflexivity. Qed.

Lemma same_cable_table c :
  ChargerSpecs.CABLE_CAPACITY c = ElectricalSpecs.CABLE_CAPACITY c.
Proof. destruct c; reflexivity. Qed.

(** ** What a selected rating satisfies *)

Lemma next_rating_sorted (ladder : list Z) (x : Q) (b : Z) :
  StronglySorted Z.lt ladder ->
  next_rating ladder x = Some b ->
  In b ladder /\
  x <= inject_Z b /\
  forall b', In b' ladder -> (b' < b)%Z -> ~ x <= inject_Z b'.
Proof.
  unfold next_rating; intros Hsorted Hfind.
  destruct (find_some _ _ Hfind) as [Hin Hle].
  repeat split; [assumption | now apply Qle_bool_iff |].
  intros b' Hin' Hlt Hle'.
  apply Qle_bool_iff in Hle'.
  rewrite (find_first_minimal Z.lt Zlt_asym _ _ _ Hsorted Hfind b' Hin' Hlt)
    in Hle'.
  discriminate.
Qed.

Lemma next_rating_spec (x : Q) (b : Z) :
  next_rating ElectricalSpecs.STANDARD_BREAKERS x = Some b ->
  In b ElectricalSpecs.STANDARD_BREAKERS /\
  x <= inject_Z b /\
  forall b', In b' ElectricalSpecs.STANDARD_BREAKERS ->
             (b' < b)%Z -> ~ x <= inject_Z b'.
Proof. apply next_rating_sorted, ladder_sorted. Qed.

Lemma next_rating_None (x : Q) :
  next_rating ElectricalSpecs.STANDARD_BREAKERS x = None <-> 2000 < x.
Proof.
  unfold next_rating; split.
  - intros Hnone.
    assert (H : Qle_bool x (inject_Z 2000) = false).
    { apply (find_none _ _ Hnone 2000%Z).
      unfold ElectricalSpecs.STANDARD_BREAKERS; simpl; tauto. }
    destruct (Qlt_le_dec 2000 x) as [Hlt | Hle]; [assumption |].
    apply Qle_bool_iff in Hle.
    change (inject_Z 2000) with 2000 in H.
    rewrite H in Hle; discriminate.
  - intros Hlt.
    destruct (find _ _) as [b |] eqn:Hfind; [| reflexivity].
    destruct (find_some _ _ Hfind) as [Hin Hle].
    apply Qle_bool_iff in Hle.
    apply ladder_positive in Hin.
    assert (Hb : inject_Z b <= inject_Z 2000) by (rewrite <- Zle_Qle; lia).
    change (inject_Z 2000) with 2000 in Hb.
    lra.
Qed.

Lemma next_rating_mono (x1 x2 : Q) (b1 b2 : Z) :
  x1 <= x2 ->
  next_rating ElectricalSpecs.STANDARD_BREAKERS x1 = Some b1 ->
  next_rating ElectricalSpecs.STANDARD_BREAKERS x2 = Some b2 ->
  (b1 <= b2)%Z.
Proof.
  intros Hx H1 H2.
  apply next_rating_spec in H1 as (_ & _ & Hmin).
  apply next_rating_spec in H2 as (Hin2 & Hle2 & _).
  destruct (Z_lt_le_dec b2 b1) as [Hlt | Hle]; [| assumption].
  exfalso. apply (Hmin b2 Hin2 Hlt). lra.
Qed.

Lemma next_cable_spec c (breaker_size : Z) (size ampacity : Q) :
  next_cable (ElectricalSpecs.CABLE_CAPACITY c) breaker_size
    = Some (size, ampacity) ->
  In (size, ampacity) (ElectricalSpecs.CABLE_CAPACITY c) /\
  inject_Z breaker_size <= ampacity /\
  forall size' ampacity',
    In (size', ampacity') (ElectricalSpecs.CABLE_CAPACITY c) ->
    size' < size -> ~ inject_Z breaker_size <= ampacity'.
Proof.
  unfold next_cable; rewrite sorted_cable_table; intros Hfind.
  destruct (find_some _ _ Hfind) as [Hin Hle]; simpl in Hle.
  repeat split; [assumption | now apply Qle_bool_iff |].
  intros size' ampacity' Hin' Hlt Hle'.
  apply Qle_bool_iff in Hle'.
  assert (H := find_first_minimal key_lt key_lt_asym _ _ _
                 (cable_table_sorted c) Hfind (size', ampacity') Hin' Hlt).
  simpl in H. rewrite H in Hle'. discriminate.
Qed.

(** A cross-section found in a table is a key of that table. *)
Lemma getitem_cable c (size ampacity : Q) :
  In (size, ampacity) (ElectricalSpecs.CABLE_CAPACITY c) ->
  getitem (ElectricalSpecs.CABLE_CAPACITY c) size = Return ampacity.
Proof.
  destruct c; unfold ElectricalSpecs.CABLE_CAPACITY; simpl; intros H;
    repeat (destruct H as [[= <- <-] | H]; [reflexivity |]); contradiction.
Qed.

(** ** Successful sizing, step by step *)

Lemma electrical_sizing_inv charger_type capacity quantity d :
  ElectricalSpecs.calculate_requirements charger_type capacity quantity
    = Return (Some d) ->
  exists cfg,
    ElectricalSpecs.configuration charger_type capacity = Return cfg /\
    next_rating ElectricalSpecs.STANDARD_BREAKERS
      (ElectricalSpecs.derated_current cfg)
      = Some (ElectricalSpecs.Breaker_Size_A d) /\
    next_cable (ElectricalSpecs.CABLE_CAPACITY (cores cfg))
      (ElectricalSpecs.Breaker_Size_A d)
      = Some (ElectricalSpecs.Cable_Size d, ElectricalSpecs.Cable_Capacity_A d) /\
    ElectricalSpecs.Cable_Configuration d = cores cfg /\
    ElectricalSpecs.Phase d = phase cfg /\
    ElectricalSpecs.Voltage_V d = voltage cfg /\
    ElectricalSpecs.Full_Load_Current_A d = round (current cfg) 1 /\
    ElectricalSpecs.Derated_AC_Current_A d =
      match charger_type with
      | DC => round (ElectricalSpecs.derated_ac_current cfg) 1
      | AC => round (ElectricalSpecs.derated_current cfg) 1
      end.
Proof.
  unfold ElectricalSpecs.calculate_requirements.
  destruct (ElectricalSpecs.configuration charger_type capacity) as [cfg | e];
    cbv beta iota zeta delta [bind]; [| discriminate].
  destruct (next_rating ElectricalSpecs.STANDARD_BREAKERS
              (ElectricalSpecs.derated_current cfg)) as [b |] eqn:Hb;
    [| discriminate].
  destruct (falsy_Z b); [discriminate |].
  destruct (next_cable _ b) as [[size ampacity] |] eqn:Hc; [| discriminate].
  destruct (falsy_Q size); [discriminate |].
  intros [= <-]; simpl.
  exists cfg; repeat split; assumption.
Qed.

Lemma charger_sizing_inv charger_type capacity quantity params d :
  ChargerSpecs.calculate_requirements charger_type capacity quantity params
    = Return (Some d) ->
  exists cfg,
    ChargerSpecs.configuration charger_type capacity params = Return cfg /\
    next_rating ElectricalSpecs.STANDARD_BREAKERS
      (ChargerSpecs.derated_current cfg params)
      = Some (ChargerSpecs.Breaker_Size_A d) /\
    next_cable (ElectricalSpecs.CABLE_CAPACITY (cores cfg))
      (ChargerSpecs.Breaker_Size_A d)
      = Some (ChargerSpecs.Cable_Size_mm2 d, ChargerSpecs.Cable_Capacity_A d) /\
    ChargerSpecs.Cable_Configuration d = cores cfg /\
    ChargerSpecs.Phase d = phase cfg /\
    ChargerSpecs.Voltage_V d = voltage cfg /\
    ChargerSpecs.Full_Load_Current_A d = round (current cfg) 1 /\
    ChargerSpecs.AC_Input_Current_A d = round (ac_current cfg) 1 /\
    ChargerSpecs.Derated_AC_Current_A d =
      round (ChargerSpecs.derated_ac_current cfg params) 1.
Proof.
  unfold ChargerSpecs.calculate_requirements.
  rewrite same_ladder.
  destruct (ChargerSpecs.configuration charger_type capacity params)
    as [cfg | e]; cbv beta iota zeta delta [bind]; [| discriminate].
  rewrite same_cable_table.
  destruct (next_rating ElectricalSpecs.STANDARD_BREAKERS
              (ChargerSpecs.derated_current cfg params)) as [b |] eqn:Hb;
    [| discriminate].
  destruct (falsy_Z b); [discriminate |].
  destruct (next_cable _ b) as [[size ampacity] |] eqn:Hc;
    cbv beta iota zeta delta [option_map fst]; [| discriminate].
  destruct (falsy_Q size); [discriminate |].
  rewrite (getitem_cable (cores cfg) size ampacity)
    by (now apply next_cable_spec in Hc).
  intros [= <-]; simpl.
  exists cfg; repeat split; assumption.
Qed.

(** ** Breaker and cable sufficiency *)

(** C1.  Whenever either file's [calculate_requirements] returns a design,
    the breaker it reports is a member of [STANDARD_BREAKERS], is at least
    the unrounded derated load current, and no smaller member of the ladder
    is. *)
Theorem breaker_sufficient_and_minimal :
  (forall charger_type capacity quantity d,
      ElectricalSpecs.calculate_requirements charger_type capacity quantity
        = Return (Some d) ->
      exists cfg,
        ElectricalSpecs.configuration charger_type capacity = Return cfg /\
        In (ElectricalSpecs.Breaker_Size_A d) ElectricalSpecs.STANDARD_BREAKERS /\
        ElectricalSpecs.derated_current cfg
          <= inject_Z (ElectricalSpecs.Breaker_Size_A d) /\
        forall b, In b ElectricalSpecs.STANDARD_BREAKERS ->
                  (b < ElectricalSpecs.Breaker_Size_A d)%Z ->
                  ~ ElectricalSpecs.derated_current cfg <= inject_Z b) /\
  (forall charger_type capacity quantity params d,
      ChargerSpecs.calculate_requirements charger_type capacity quantity params
        = Return (Some d) ->
      exists cfg,
        ChargerSpecs.configuration charger_type capacity params = Return cfg /\
        In (ChargerSpecs.Breaker_Size_A d) ChargerSpecs.STANDARD_BREAKERS /\
        ChargerSpecs.derated_current cfg params
          <= inject_Z (ChargerSpecs.Breaker_Size_A d) /\
        forall b, In b ChargerSpecs.STANDARD_BREAKERS ->
                  (b < ChargerSpecs.Breaker_Size_A d)%Z ->
                  ~ ChargerSpecs.derated_current cfg params <= inject_Z b).
Proof.
  split.
  - intros ct cap q d H.
    apply electrical_sizing_inv in H as (cfg & Hcfg & Hb & _).
    exists cfg; split; [assumption |].
    now apply next_rating_spec.
  - intros ct cap q p d H.
    apply charger_sizing_inv in H as (cfg & Hcfg & Hb & _).
    exists cfg; split; [assumption |].
    rewrite same_ladder. now apply next_rating_spec.
Qed.

(** C2.  Whenever either file's [calculate_requirements] returns a design,
    the cable it reports is an entry of the ampacity table of the resolved
    core configuration, its ampacity is at least the selected breaker rating,
    and every entry of that table with a smaller cross-section has an
    ampacity below the breaker rating. *)
Theorem cable_sufficient_and_minimal :
  (forall charger_type capacity quantity d,
      ElectricalSpecs.calculate_requirements charger_type capacity quantity
        = Return (Some d) ->
      let table :=
        ElectricalSpecs.CABLE_CAPACITY (ElectricalSpecs.Cable_Configuration d) in
      (exists cfg, ElectricalSpecs.configuration charger_type capacity
                     = Return cfg /\
                   ElectricalSpecs.Cable_Configuration d = cores cfg) /\
      In (ElectricalSpecs.Cable_Size d, ElectricalSpecs.Cable_Capacity_A d)
         table /\
      inject_Z (ElectricalSpecs.Breaker_Size_A d)
        <= ElectricalSpecs.Cable_Capacity_A d /\
      forall size ampacity,
        In (size, ampacity) table ->
        size < ElectricalSpecs.Cable_Size d ->
        ~ inject_Z (ElectricalSpecs.Breaker_Size_A d) <= ampacity) /\
  (forall charger_type capacity quantity params d,
      ChargerSpecs.calculate_requirements charger_type capacity quantity params
        = Return (Some d) ->
      let table :=
        ChargerSpecs.CABLE_CAPACITY (ChargerSpecs.Cable_Configuration d) in
      (exists cfg, ChargerSpecs.configuration charger_type capacity params
                     = Return cfg /\
                   ChargerSpecs.Cable_Configuration d = cores cfg) /\
      In (ChargerSpecs.Cable_Size_mm2 d, ChargerSpecs.Cable_Capacity_A d)
         table /\
      inject_Z (ChargerSpecs.Breaker_Size_A d)
        <= ChargerSpecs.Cable_Capacity_A d /\
      forall size ampacity,
        In (size, ampacity) table ->
        size < ChargerSpecs.Cable_Size_mm2 d ->
        ~ inject_Z (ChargerSpecs.Breaker_Size_A d) <= ampacity).
Proof.
  split.
  - intros ct cap q d H table; subst table.
    apply electrical_sizing_inv in H as (cfg & Hcfg & _ & Hc & Hcores & _).
    rewrite Hcores. split; [now exists cfg |].
    now apply next_cable_spec.
  - intros ct cap q p d H table; subst table.
    apply charger_sizing_inv in H as (cfg & Hcfg & _ & Hc & Hcores & _).
    rewrite Hcores, same_cable_table. split; [now exists cfg |].
    now apply next_cable_spec.
Qed.

Lemma breaker_sufficient_and_minimal_witness :
  exists d,
    ElectricalSpecs.calculate_requirements AC 7 1 = Return (Some d) /\
    exists cfg,
      ElectricalSpecs.configuration AC 7 = Return cfg /\
      In (ElectricalSpecs.Breaker_Size_A d) ElectricalSpecs.STANDARD_BREAKERS /\
      ElectricalSpecs.derated_current cfg
        <= inject_Z (ElectricalSpecs.Breaker_Size_A d) /\
      forall b, In b ElectricalSpecs.STANDARD_BREAKERS ->
                (b < ElectricalSpecs.Breaker_Size_A d)%Z ->
                ~ ElectricalSpecs.derated_current cfg <= inject_Z b.
Proof.
  eexists; split.
  - vm_compute; reflexivity.
  - apply (proj1 breaker_sufficient_and_minimal AC 7 1%Z).
    vm_compute; reflexivity.
Defined.

Lemma cable_sufficient_and_minimal_witness :
  exists d,
    ChargerSpecs.calculate_requirements DC 100 1 ChargerSpecs.default_params
      = Return (Some d) /\
    In (ChargerSpecs.Cable_Size_mm2 d, ChargerSpecs.Cable_Capacity_A d)
       (ChargerSpecs.CABLE_CAPACITY (ChargerSpecs.Cable_Configuration d)) /\
    inject_Z (ChargerSpecs.Breaker_Size_A d) <= ChargerSpecs.Cable_Capacity_A d.
Proof.
  eexists; split.
  - vm_compute; reflexivity.
  - edestruct (proj2 cable_sufficient_and_minimal DC 100 1%Z
                 ChargerSpecs.default_params) as (_ & Hin & Hle & _);
      [vm_compute; reflexivity |].
    split; [exact Hin | exact Hle].
Defined.

(** ** Resolved voltage and currents of DC chargers *)

Lemma sqrt3_pos : 0 < sqrt3.
Proof. reflexivity. Qed.

Lemma truediv_pos (a b : Q) : 0 < b -> truediv a b = Return (a / b).
Proof.
  intros Hb; unfold truediv.
  destruct (Qeq_bool b 0) eqn:E; [| reflexivity].
  apply Qeq_bool_eq in E. lra.
Qed.

Lemma truediv_inv (a b q : Q) : truediv a b = Return q -> q = a / b.
Proof. unfold truediv; destruct (Qeq_bool b 0); congruence. Qed.

Lemma charger_configuration_DC capacity params :
  valid_params params ->
  ChargerSpecs.configuration DC capacity params =
  Return (mkConfiguration (ChargerSpecs.dc_voltage params) PhaseDC Cores2C
            (spec_dc_current capacity params)
            (spec_ac_input_current capacity params)).
Proof.
  intros (_ & _ & He & Hp & Ha & Hd).
  unfold ChargerSpecs.configuration.
  assert (Hs := sqrt3_pos).
  cbv beta iota zeta delta [bind].
  rewrite (truediv_pos _ (ChargerSpecs.dc_voltage params)) by assumption.
  rewrite (truediv_pos _ (_ * ChargerSpecs.power_factor params)) by nra.
  rewrite (truediv_pos _ (_ * sqrt3)) by nra.
  reflexivity.
Qed.

Lemma electrical_configuration_DC capacity v :
  getitem (ElectricalSpecs.VOLTAGE DC) capacity = Return v ->
  ElectricalSpecs.configuration DC capacity =
  Return (mkConfiguration v PhaseDC Cores2C (capacity * 1000 / v)
            (capacity / (0.95 * 0.95) * 1000 / (400 * sqrt3))) /\
  (v = 500 \/ v = 750).
Proof.
  unfold ElectricalSpecs.configuration; intros Hv; rewrite Hv.
  assert (Hv' : v = 500 \/ v = 750).
  { revert Hv. unfold ElectricalSpecs.VOLTAGE; simpl.
    repeat (destruct (Qeq_bool _ capacity); [intros [= <-]; tauto |]).
    discriminate. }
  split; [| assumption].
  cbv beta iota zeta delta [bind].
  rewrite (truediv_pos _ v) by (destruct Hv' as [-> | ->]; reflexivity).
  rewrite (truediv_pos _ (0.95 * 0.95)) by reflexivity.
  rewrite (truediv_pos _ (400 * sqrt3)) by reflexivity.
  reflexivity.
Qed.

Lemma default_params_valid : valid_params ChargerSpecs.default_params.
Proof. repeat split. Qed.

Lemma getitem_DC_menu capacity :
  In capacity DC_CAPACITIES ->
  getitem (ElectricalSpecs.VOLTAGE DC) capacity
    = Return (if Qle_bool capacity 150 then 500 else 750).
Proof.
  unfold DC_CAPACITIES; simpl; intros H.
  repeat (destruct H as [<- | H]; [reflexivity |]). contradiction.
Qed.

(** C3, amended.  In [charger_specs.py] a DC charger of any capacity is
    sized at [params['dc_voltage']] with load current
    [capacity * 1000 / dc_voltage], and the design reports that voltage and
    the current rounded to one decimal.  In [electrical_specs.py] the voltage
    of a DC charger comes from the [VOLTAGE] table: 500 V for the capacities
    up to 150 kW and 750 V for 300 and 350 kW; the load current is
    [capacity * 1000] over that voltage. *)
Theorem dc_voltage_and_load_current :
  (forall capacity params,
      valid_params params ->
      exists cfg,
        ChargerSpecs.configuration DC capacity params = Return cfg /\
        voltage cfg = ChargerSpecs.dc_voltage params /\
        current cfg = capacity * 1000 / ChargerSpecs.dc_voltage params /\
        forall quantity d,
          ChargerSpecs.calculate_requirements DC capacity quantity params
            = Return (Some d) ->
          ChargerSpecs.Voltage_V d = ChargerSpecs.dc_voltage params /\
          ChargerSpecs.Full_Load_Current_A d
            = round (capacity * 1000 / ChargerSpecs.dc_voltage params) 1) /\
  (forall capacity,
      In capacity DC_CAPACITIES ->
      exists cfg,
        ElectricalSpecs.configuration DC capacity = Return cfg /\
        voltage cfg = (if Qle_bool capacity 150 then 500 else 750) /\
        current cfg = capacity * 1000 / voltage cfg /\
        forall quantity d,
          ElectricalSpecs.calculate_requirements DC capacity quantity
            = Return (Some d) ->
          ElectricalSpecs.Voltage_V d = voltage cfg /\
          ElectricalSpecs.Full_Load_Current_A d = round (current cfg) 1).
Proof.
  split.
  - intros capacity params Hvalid.
    eexists; split; [now apply charger_configuration_DC |].
    repeat split.
    + apply charger_sizing_inv in H as (cfg & Hcfg & _ & _ & _ & _ & Hv & _).
      rewrite charger_configuration_DC in Hcfg by assumption.
      injection Hcfg as <-. exact Hv.
    + apply charger_sizing_inv in H
        as (cfg & Hcfg & _ & _ & _ & _ & _ & Hc & _).
      rewrite charger_configuration_DC in Hcfg by assumption.
      injection Hcfg as <-. exact Hc.
  - intros capacity Hin.
    destruct (electrical_configuration_DC capacity _ (getitem_DC_menu _ Hin))
      as [Hcfg _].
    eexists; split; [exact Hcfg |].
    repeat split.
    + apply electrical_sizing_inv in H as (cfg & Hcfg' & _ & _ & _ & _ & Hv & _).
      rewrite Hcfg in Hcfg'. injection Hcfg' as <-. exact Hv.
    + apply electrical_sizing_inv in H
        as (cfg & Hcfg' & _ & _ & _ & _ & _ & Hc & _).
      rewrite Hcfg in Hcfg'. injection Hcfg' as <-. exact Hc.
Qed.

Lemma dc_voltage_and_load_current_witness :
  valid_params ChargerSpecs.default_params /\
  exists cfg,
    ChargerSpecs.configuration DC 100 ChargerSpecs.default_params
      = Return cfg /\
    voltage cfg = 500 /\
    current cfg = 100 * 1000 / 500.
Proof.
  split; [exact default_params_valid |].
  destruct (proj1 dc_voltage_and_load_current 100 ChargerSpecs.default_params
              default_params_valid) as (cfg & Hcfg & Hv & Hc & _).
  exists cfg; repeat split; assumption.
Defined.

(** C3 as stated fails on [electrical_specs.py]: 300 kW is on the DC menu,
    and the circuit is sized at 750 V and 400 A, not at the 500 V default
    and 600 A. *)
Lemma electrical_dc_300_sized_at_750V :
  In 300 DC_CAPACITIES /\
  exists cfg,
    ElectricalSpecs.configuration DC 300 = Return cfg /\
    voltage cfg == 750 /\
    current cfg == 400 /\
    ~ voltage cfg == ChargerSpecs.dc_voltage ChargerSpecs.default_params /\
    ~ current cfg == spec_dc_current 300 ChargerSpecs.default_params.
Proof.
  split; [unfold DC_CAPACITIES; simpl; tauto |].
  eexists; split; [vm_compute; reflexivity |].
  simpl. repeat split; try reflexivity; intros H; discriminate H.
Qed.

(** C4, amended.  In [charger_specs.py] the AC-side input current of a DC
    charger is [capacity / (dc_efficiency * power_factor) * 1000 /
    (ac_voltage * sqrt 3)] for the parameters passed in, and the design
    reports it rounded to one decimal.  [electrical_specs.py] takes no
    parameters: it computes the same expression with the fixed values 0.95,
    0.95 and 400 V, which are the defaults of the other file. *)
Theorem ac_input_current_of_dc_charger :
  (forall capacity params,
      valid_params params ->
      exists cfg,
        ChargerSpecs.configuration DC capacity params = Return cfg /\
        ac_current cfg = spec_ac_input_current capacity params /\
        forall quantity d,
          ChargerSpecs.calculate_requirements DC capacity quantity params
            = Return (Some d) ->
          ChargerSpecs.AC_Input_Current_A d
            = round (spec_ac_input_current capacity params) 1) /\
  (forall capacity cfg,
      ElectricalSpecs.configuration DC capacity = Return cfg ->
      ac_current cfg
        = spec_ac_input_current capacity ChargerSpecs.default_params /\
      forall quantity d,
        ElectricalSpecs.calculate_requirements DC capacity quantity
          = Return (Some d) ->
        ElectricalSpecs.AC_Input_Current_A d
          = round (spec_ac_input_current capacity ChargerSpecs.default_params)
              1).
Proof.
  split.
  - intros capacity params Hvalid.
    eexists; split; [now apply charger_configuration_DC |].
    split; [reflexivity |].
    intros quantity d H.
    apply charger_sizing_inv in H
      as (cfg & Hcfg & _ & _ & _ & _ & _ & _ & Ha & _).
    rewrite charger_configuration_DC in Hcfg by assumption.
    injection Hcfg as <-. exact Ha.
  - intros capacity cfg Hcfg.
    assert (Hac : ac_current cfg
                  = spec_ac_input_current capacity ChargerSpecs.default_params).
    { destruct (getitem (ElectricalSpecs.VOLTAGE DC) capacity) as [v | e] eqn:Hv.
      - destruct (electrical_configuration_DC capacity v Hv) as [Hcfg' _].
        rewrite Hcfg' in Hcfg. injection Hcfg as <-. reflexivity.
      - unfold ElectricalSpecs.configuration in Hcfg.
        rewrite Hv in Hcfg. discriminate. }
    split; [exact Hac |].
    intros quantity d H. rewrite <- Hac.
    unfold ElectricalSpecs.calculate_requirements in H.
    rewrite Hcfg in H. cbv beta iota zeta delta [bind] in H.
    destruct (next_rating _ _) as [b |]; [| discriminate].
    destruct (falsy_Z b); [discriminate |].
    destruct (next_cable _ b) as [[size ampacity] |]; [| discriminate].
    destruct (falsy_Q size); [discriminate |].
    injection H as <-. reflexivity.
Qed.

Lemma ac_input_current_of_dc_charger_witness :
  valid_params ChargerSpecs.default_params /\
  exists cfg,
    ChargerSpecs.configuration DC 100 ChargerSpecs.default_params
      = Return cfg /\
    ac_current cfg = spec_ac_input_current 100 ChargerSpecs.default_params.
Proof.
  split; [exact default_params_valid |].
  destruct (proj1 ac_input_current_of_dc_charger 100
              ChargerSpecs.default_params default_params_valid)
    as (cfg & Hcfg & Hac & _).
  exists cfg; split; assumption.
Defined.

(** C4 as stated fails on [electrical_specs.py]: with the AC system voltage
    set to 415 V the formula gives a current that the fixed 400 V of this
    file does not produce. *)
Lemma electrical_ac_input_current_ignores_parameters :
  let params :=
    {| ChargerSpecs.safety_factor := 1.25;
       ChargerSpecs.diversity_factor := 0.9;
       ChargerSpecs.dc_efficiency := 0.95;
       ChargerSpecs.power_factor := 0.95;
       ChargerSpecs.ac_voltage := 415;
       ChargerSpecs.dc_voltage := 500 |} in
  valid_params params /\
  exists cfg,
    ElectricalSpecs.configuration DC 100 = Return cfg /\
    ~ ac_current cfg == spec_ac_input_current 100 params.
Proof.
  split; [repeat split |].
  eexists; split; [vm_compute; reflexivity |].
  intros H; discriminate H.
Qed.

(** ** Rounding on the way into the aggregation *)

(** C5 fails on both files: the list entries carry the derated AC current
    already rounded to one decimal, and [calculate_msb] sums those.  For
    24 chargers of 7 kW and 5 of 22 kW (AC, default parameters) the currents
    at full precision give a diversified current above 1000 A, while the
    code sums 38.0 and 39.7, stays below 1000 A and selects the 1000 A main
    breaker. *)
Theorem aggregation_sums_rounded_currents :
  (exists d7 d22 cfg7 cfg22,
      ElectricalSpecs.calculate_requirements AC 7 24 = Return (Some d7) /\
      ElectricalSpecs.calculate_requirements AC 22 5 = Return (Some d22) /\
      ElectricalSpecs.configuration AC 7 = Return cfg7 /\
      ElectricalSpecs.configuration AC 22 = Return cfg22 /\
      let chargers :=
        [ElectricalSpecs.mkCharger AC 7 24 d7;
         ElectricalSpecs.mkCharger AC 22 5 d22] in
      let exact :=
        ElectricalSpecs.derated_ac_current cfg7 * 24
        + ElectricalSpecs.derated_ac_current cfg22 * 5 in
      ElectricalSpecs.total_derated_ac_current chargers
        == 38.0 * 24 + 39.7 * 5 /\
      ElectricalSpecs.total_derated_ac_current chargers < exact /\
      ElectricalSpecs.diversified_current chargers < 1000 /\
      1000 < exact * ElectricalSpecs.diversity_factor /\
      exists msb,
        ElectricalSpecs.calculate_msb chargers = Return (Some msb) /\
        ElectricalSpecs.Main_Breaker_Size_A msb = 1000%Z) /\
  (exists d7 d22 cfg7 cfg22,
      let params := ChargerSpecs.default_params in
      ChargerSpecs.calculate_requirements AC 7 24 params = Return (Some d7) /\
      ChargerSpecs.calculate_requirements AC 22 5 params = Return (Some d22) /\
      ChargerSpecs.configuration AC 7 params = Return cfg7 /\
      ChargerSpecs.configuration AC 22 params = Return cfg22 /\
      let chargers :=
        [ChargerSpecs.mkCharger AC 7 24 d7;
         ChargerSpecs.mkCharger AC 22 5 d22] in
      let exact :=
        ChargerSpecs.derated_ac_current cfg7 params * 24
        + ChargerSpecs.derated_ac_current cfg22 params * 5 in
      ChargerSpecs.total_derated_ac_current chargers
        == 38.0 * 24 + 39.7 * 5 /\
      ChargerSpecs.total_derated_ac_current chargers < exact /\
      ChargerSpecs.diversified_current chargers params < 1000 /\
      1000 < exact * ChargerSpecs.diversity_factor params /\
      exists msb,
        ChargerSpecs.calculate_msb chargers params = Return (Some msb) /\
        ChargerSpecs.Main_Breaker_Size_A msb = 1000%Z).
Proof.
  split.
  - do 4 eexists.
    repeat (split; [vm_compute; reflexivity |]).
    eexists; split; vm_compute; reflexivity.
  - do 4 eexists.
    repeat (split; [vm_compute; reflexivity |]).
    eexists; split; vm_compute; reflexivity.
Qed.

(** ** Rounding for display *)

Lemma round_half_even_comp (x y : Q) :
  x == y -> round_half_even x = round_half_even y.
Proof.
  intros Hxy; unfold round_half_even.
  rewrite (Qfloor_comp _ _ Hxy).
  assert (Hc : Qcompare (x - inject_Z (Qfloor y)) (1 # 2)
               = Qcompare (y - inject_Z (Qfloor y)) (1 # 2))
    by (apply Qcompare_comp; [rewrite Hxy |]; reflexivity).
  now rewrite Hc.
Qed.

Lemma round_comp (x y : Q) (ndigits : Z) :
  x == y -> round x ndigits == round y ndigits.
Proof.
  intros Hxy; unfold round.
  rewrite (round_half_even_comp (x * 10 ^ ndigits) (y * 10 ^ ndigits))
    by (rewrite Hxy; reflexivity).
  reflexivity.
Qed.

Lemma round_half_even_bounds (y : Q) :
  (Qfloor y <= round_half_even y <= Qfloor y + 1)%Z.
Proof.
  unfold round_half_even.
  destruct (Qcompare _ _); [destruct (Z.even _) | |]; lia.
Qed.

Lemma round_1_nonneg (x : Q) : 0 <= x -> 0 <= round x 1.
Proof.
  intros Hx; unfold round.
  change (10 ^ 1) with 10.
  assert (H0 : (0 <= Qfloor (x * 10))%Z).
  { change 0%Z with (Qfloor 0). apply Qfloor_resp_le. lra. }
  assert (Hb := round_half_even_bounds (x * 10)).
  assert (Hr : inject_Z 0 <= inject_Z (round_half_even (x * 10)))
    by (rewrite <- Zle_Qle; lia).
  change (inject_Z 0) with 0 in Hr.
  apply Qle_shift_div_l; [reflexivity | lra].
Qed.

(** ** The empty list of chargers *)

Lemma next_rating_smallest (x : Q) :
  x <= 6 -> next_rating ElectricalSpecs.STANDARD_BREAKERS x = Some 6%Z.
Proof.
  intros Hx; unfold next_rating, ElectricalSpecs.STANDARD_BREAKERS.
  cbn [find]. change (inject_Z 6) with 6.
  now rewrite (proj2 (Qle_bool_iff x 6) Hx).
Qed.

(** C6, amended.  On the empty list neither [calculate_msb] raises: both
    return a design whose connected load, total and diversified current and
    computed busbar rating are zero, whose main breaker is the smallest
    rating of the ladder, 6 A, and whose board is the first catalog entry,
    100 A. *)
Theorem calculate_msb_empty :
  (exists d,
      ElectricalSpecs.calculate_msb [] = Return (Some d) /\
      ElectricalSpecs.Total_Connected_Load_kW d == 0 /\
      ElectricalSpecs.Total_Derated_AC_Current_A d == 0 /\
      ElectricalSpecs.Diversified_Current_A d == 0 /\
      ElectricalSpecs.Busbar_Rating_A d = 0%Z /\
      ElectricalSpecs.Main_Breaker_Size_A d = 6%Z /\
      ElectricalSpecs.Recommended_MSB_Size_A d = 100%Z) /\
  (forall params,
    exists d,
      ChargerSpecs.calculate_msb [] params = Return (Some d) /\
      ChargerSpecs.Total_Connected_Load_kW d == 0 /\
      ChargerSpecs.Total_Derated_AC_Current_A d == 0 /\
      ChargerSpecs.Diversified_Current_A d == 0 /\
      ChargerSpecs.Busbar_Rating_A d = 0%Z /\
      ChargerSpecs.Main_Breaker_Size_A d = 6%Z /\
      ChargerSpecs.Recommended_MSB_Size_A d = 100%Z).
Proof.
  split.
  - eexists; split; [vm_compute; reflexivity |].
    repeat split.
  - intros params.
    unfold ChargerSpecs.calculate_msb, ChargerSpecs.total_derated_ac_current,
      ChargerSpecs.total_power, ChargerSpecs.sum.
    cbn [fold_left]. rewrite same_ladder.
    set (df := ChargerSpecs.diversity_factor params).
    assert (H0 : 0 * df == 0) by ring.
    rewrite next_rating_smallest by lra.
    cbn [falsy_Z Z.eqb].
    unfold ChargerSpecs.next_msb, ChargerSpecs.MSB_CONFIGS.
    cbn [find ChargerSpecs.Busbar]. change (inject_Z 100) with 100.
    rewrite (proj2 (Qle_bool_iff (0 * df) 100)) by lra.
    eexists; split; [reflexivity |].
    cbn [ChargerSpecs.Total_Connected_Load_kW
           ChargerSpecs.Total_Derated_AC_Current_A
           ChargerSpecs.Diversified_Current_A ChargerSpecs.Busbar_Rating_A
           ChargerSpecs.Main_Breaker_Size_A ChargerSpecs.Recommended_MSB_Size_A
           ChargerSpecs.Amps].
    split; [reflexivity |].
    split; [reflexivity |].
    split; [rewrite (round_comp _ 0) by exact H0; reflexivity |].
    split; [| split; reflexivity].
    unfold ceil.
    rewrite (Qceiling_comp (0 * df / 100) 0) by (rewrite H0; reflexivity).
    reflexivity.
Qed.

(** C6 as stated fails: the design returned for the empty list has a 6 A
    main breaker and a 100 A board, so it is not zero-valued, and it is a
    design, not a separate no-load result. *)
Lemma empty_design_not_zero_valued :
  (exists d,
      ElectricalSpecs.calculate_msb [] = Return (Some d) /\
      ~ electrical_zero_valued d) /\
  (exists d,
      ChargerSpecs.calculate_msb [] ChargerSpecs.default_params
        = Return (Some d) /\
      ~ charger_zero_valued d).
Proof.
  split; (eexists; split; [vm_compute; reflexivity |]);
    intros (_ & _ & _ & H & _); discriminate H.
Qed.

Lemma round_half_even_mono (x y : Q) :
  x <= y -> (round_half_even x <= round_half_even y)%Z.
Proof.
  intros Hxy.
  assert (Hf := Qfloor_resp_le _ _ Hxy).
  destruct (Z.eq_dec (Qfloor x) (Qfloor y)) as [E | NE].
  - unfold round_half_even; cbv zeta. rewrite E.
    destruct (Qcompare_spec (x - inject_Z (Qfloor y)) (1 # 2));
      destruct (Qcompare_spec (y - inject_Z (Qfloor y)) (1 # 2));
      try destruct (Z.even _); try lia; exfalso; lra.
  - pose proof (round_half_even_bounds x).
    pose proof (round_half_even_bounds y).
    lia.
Qed.

Lemma round_1_mono (x y : Q) : x <= y -> round x 1 <= round y 1.
Proof.
  intros Hxy; unfold round, Qdiv.
  apply Qmult_le_compat_r; [| discriminate].
  rewrite <- Zle_Qle. apply round_half_even_mono.
  apply Qmult_le_compat_r; [assumption | discriminate].
Qed.

(** ** Currents are not negative *)

Lemma div_nonneg (a b : Q) : 0 <= a -> 0 < b -> 0 <= a / b.
Proof. intros Ha Hb. apply Qle_shift_div_l; [assumption | lra]. Qed.

Lemma div_mono (a1 a2 b : Q) : a1 <= a2 -> 0 < b -> a1 / b <= a2 / b.
Proof.
  intros Ha Hb; unfold Qdiv.
  apply Qmult_le_compat_r; [assumption |].
  apply Qlt_le_weak, Qinv_lt_0_compat, Hb.
Qed.

Lemma electrical_configuration_AC capacity :
  ElectricalSpecs.configuration AC capacity =
  Return (if Qeq_bool capacity 7
          then mkConfiguration 230 Single Cores2C
                 (capacity * 1000 / 230) (capacity * 1000 / 230)
          else mkConfiguration 400 Three Cores4C
                 (capacity * 1000 / (400 * sqrt3))
                 (capacity * 1000 / (400 * sqrt3))).
Proof.
  unfold ElectricalSpecs.configuration.
  destruct (Qeq_bool capacity 7).
  - change (getitem (ElectricalSpecs.VOLTAGE AC) 7) with (Return (A:=Q) 230).
    cbv beta iota zeta delta [bind].
    now rewrite truediv_pos by reflexivity.
  - change (getitem (ElectricalSpecs.VOLTAGE AC) 22) with (Return (A:=Q) 400).
    cbv beta iota zeta delta [bind].
    now rewrite truediv_pos by reflexivity.
Qed.

Lemma charger_configuration_AC capacity params :
  0 < ChargerSpecs.ac_voltage params ->
  ChargerSpecs.configuration AC capacity params =
  Return (if Qeq_bool capacity 7
          then mkConfiguration 230 Single Cores2C
                 (capacity * 1000 / 230) (capacity * 1000 / 230)
          else mkConfiguration (ChargerSpecs.ac_voltage params) Three Cores4C
                 (capacity * 1000 / (ChargerSpecs.ac_voltage params * sqrt3))
                 (capacity * 1000 / (ChargerSpecs.ac_voltage params * sqrt3))).
Proof.
  intros Ha. assert (Hs := sqrt3_pos).
  unfold ChargerSpecs.configuration.
  destruct (Qeq_bool capacity 7); cbv beta iota zeta delta [bind].
  - now rewrite truediv_pos by reflexivity.
  - now rewrite truediv_pos by nra.
Qed.

Lemma electrical_configuration_nonneg charger_type capacity cfg :
  0 <= capacity ->
  ElectricalSpecs.configuration charger_type capacity = Return cfg ->
  0 <= current cfg /\ 0 <= ac_current cfg.
Proof.
  intros Hcap Hcfg. destruct charger_type.
  - rewrite electrical_configuration_AC in Hcfg.
    injection Hcfg as <-.
    destruct (Qeq_bool capacity 7); simpl;
      split; apply div_nonneg; try reflexivity; lra.
  - destruct (getitem (ElectricalSpecs.VOLTAGE DC) capacity) as [v | e] eqn:Hv.
    + destruct (electrical_configuration_DC capacity v Hv) as [Hcfg' Hv'].
      rewrite Hcfg' in Hcfg. injection Hcfg as <-. simpl.
      split.
      * apply div_nonneg; [lra | destruct Hv' as [-> | ->]; reflexivity].
      * apply div_nonneg; [| reflexivity].
        assert (0 <= capacity / (0.95 * 0.95))
          by (apply div_nonneg; [assumption | reflexivity]).
        lra.
    + unfold ElectricalSpecs.configuration in Hcfg.
      rewrite Hv in Hcfg. discriminate.
Qed.

Lemma charger_configuration_nonneg charger_type capacity params cfg :
  0 <= capacity ->
  valid_params params ->
  ChargerSpecs.configuration charger_type capacity params = Return cfg ->
  0 <= current cfg /\ 0 <= ac_current cfg.
Proof.
  intros Hcap Hvalid Hcfg. assert (Hs := sqrt3_pos).
  pose proof Hvalid as (_ & _ & He & Hp & Ha & Hd).
  destruct charger_type.
  - rewrite charger_configuration_AC in Hcfg by assumption.
    injection Hcfg as <-.
    destruct (Qeq_bool capacity 7); simpl;
      split; apply div_nonneg; try reflexivity; nra.
  - rewrite charger_configuration_DC in Hcfg by assumption.
    injection Hcfg as <-. simpl.
    unfold spec_dc_current, spec_ac_input_current.
    split.
    + apply div_nonneg; [lra | assumption].
    + apply div_nonneg; [| nra].
      assert (0 <= capacity / (ChargerSpecs.dc_efficiency params
                               * ChargerSpecs.power_factor params))
        by (apply div_nonneg; [assumption | nra]).
      lra.
Qed.

Lemma electrical_entry_nonneg charger :
  electrical_entry charger ->
  0 <= ElectricalSpecs.Derated_AC_Current_A (ElectricalSpecs.result charger)
       * inject_Z (ElectricalSpecs.Quantity charger).
Proof.
  intros (Hq & ct & cap & q & Hcap & Hsize).
  apply electrical_sizing_inv in Hsize
    as (cfg & Hcfg & _ & _ & _ & _ & _ & _ & Hd).
  destruct (electrical_configuration_nonneg _ _ _ Hcap Hcfg) as [Hc Hac].
  assert (Hqq : inject_Z 0 <= inject_Z (ElectricalSpecs.Quantity charger))
    by (now rewrite <- Zle_Qle).
  change (inject_Z 0) with 0 in Hqq.
  apply Qmult_le_0_compat; [| assumption].
  rewrite Hd.
  destruct ct; apply round_1_nonneg;
    unfold ElectricalSpecs.derated_current, ElectricalSpecs.derated_ac_current;
    lra.
Qed.

Lemma charger_entry_nonneg charger :
  charger_entry charger ->
  0 <= ChargerSpecs.Derated_AC_Current_A (ChargerSpecs.result charger)
       * inject_Z (ChargerSpecs.Quantity charger).
Proof.
  intros (Hq & ct & cap & q & p & Hcap & Hvalid & Hsize).
  apply charger_sizing_inv in Hsize
    as (cfg & Hcfg & _ & _ & _ & _ & _ & _ & _ & Hd).
  destruct (charger_configuration_nonneg _ _ _ _ Hcap Hvalid Hcfg) as [Hc Hac].
  assert (Hqq : inject_Z 0 <= inject_Z (ChargerSpecs.Quantity charger))
    by (now rewrite <- Zle_Qle).
  change (inject_Z 0) with 0 in Hqq.
  apply Qmult_le_0_compat; [| assumption].
  rewrite Hd. apply round_1_nonneg.
  unfold ChargerSpecs.derated_ac_current.
  destruct Hvalid as (Hs & _). nra.
Qed.

Lemma fold_left_add_nonneg {A : Type} (f : A -> Q) (xs : list A) (acc : Q) :
  0 <= acc ->
  Forall (fun x => 0 <= f x) xs ->
  0 <= fold_left (fun acc x => acc + f x) xs acc.
Proof.
  intros Hacc Hxs; revert acc Hacc.
  induction Hxs as [| x xs Hx _ IH]; intros acc Hacc; simpl.
  - assumption.
  - apply IH. lra.
Qed.

(** ** Diversity *)

(** C8.  For a list of sized circuits, the diversified current is at most
    the total derated AC current: always in [electrical_specs.py], whose
    factor is 0.9, and in [charger_specs.py] whenever the diversity factor is
    at most 1.  The same holds of the two figures the design reports. *)
Theorem diversity_never_increases_current :
  (forall chargers,
      Forall electrical_entry chargers ->
      ElectricalSpecs.diversified_current chargers
        <= ElectricalSpecs.total_derated_ac_current chargers /\
      forall d,
        ElectricalSpecs.calculate_msb chargers = Return (Some d) ->
        ElectricalSpecs.Diversified_Current_A d
          <= ElectricalSpecs.Total_Derated_AC_Current_A d) /\
  (forall chargers params,
      Forall charger_entry chargers ->
      ChargerSpecs.diversity_factor params <= 1 ->
      ChargerSpecs.diversified_current chargers params
        <= ChargerSpecs.total_derated_ac_current chargers /\
      forall d,
        ChargerSpecs.calculate_msb chargers params = Return (Some d) ->
        ChargerSpecs.Diversified_Current_A d
          <= ChargerSpecs.Total_Derated_AC_Current_A d).
Proof.
  split.
  - intros chargers Hentries.
    assert (Htotal : 0 <= ElectricalSpecs.total_derated_ac_current chargers).
    { apply (fold_left_add_nonneg
               (fun c => ElectricalSpecs.Derated_AC_Current_A
                           (ElectricalSpecs.result c)
                         * inject_Z (ElectricalSpecs.Quantity c)));
        [lra |].
      eapply Forall_impl; [| exact Hentries].
      intros c; apply electrical_entry_nonneg. }
    assert (Hdiv : ElectricalSpecs.diversified_current chargers
                   <= ElectricalSpecs.total_derated_ac_current chargers).
    { unfold ElectricalSpecs.diversified_current,
        ElectricalSpecs.diversity_factor. lra. }
    split; [exact Hdiv |].
    intros d Hd. unfold ElectricalSpecs.calculate_msb in Hd; cbv zeta in Hd.
    destruct (next_rating _ _) as [b |]; [| discriminate].
    destruct (falsy_Z b); [discriminate |].
    destruct (ElectricalSpecs.next_msb _) as [msb |]; [| discriminate].
    injection Hd as <-. simpl.
    apply round_1_mono, Hdiv.
  - intros chargers params Hentries Hdf.
    assert (Htotal : 0 <= ChargerSpecs.total_derated_ac_current chargers).
    { apply (fold_left_add_nonneg
               (fun c => ChargerSpecs.Derated_AC_Current_A
                           (ChargerSpecs.result c)
                         * inject_Z (ChargerSpecs.Quantity c)));
        [lra |].
      eapply Forall_impl; [| exact Hentries].
      intros c; apply charger_entry_nonneg. }
    assert (Hdiv : ChargerSpecs.diversified_current chargers params
                   <= ChargerSpecs.total_derated_ac_current chargers).
    { unfold ChargerSpecs.diversified_current. nra. }
    split; [exact Hdiv |].
    intros d Hd. unfold ChargerSpecs.calculate_msb in Hd; cbv zeta in Hd.
    destruct (next_rating _ _) as [b |]; [| discriminate].
    destruct (falsy_Z b); [discriminate |].
    destruct (ChargerSpecs.next_msb _) as [msb |]; [| discriminate].
    injection Hd as <-. simpl.
    apply round_1_mono, Hdiv.
Qed.

Lemma diversity_never_increases_current_witness :
  exists d,
    ChargerSpecs.calculate_requirements AC 7 1 ChargerSpecs.default_params
      = Return (Some d) /\
    ChargerSpecs.diversity_factor ChargerSpecs.default_params <= 1 /\
    ChargerSpecs.diversified_current [ChargerSpecs.mkCharger AC 7 1 d]
      ChargerSpecs.default_params
    <= ChargerSpecs.total_derated_ac_current [ChargerSpecs.mkCharger AC 7 1 d].
Proof.
  eexists; split; [vm_compute; reflexivity |].
  split; [discriminate |].
  apply (proj2 diversity_never_increases_current).
  - constructor; [| constructor].
    split; [simpl; lia |].
    exists AC, 7, 1%Z, ChargerSpecs.default_params.
    split; [discriminate |].
    split; [exact default_params_valid |].
    vm_compute; reflexivity.
  - discriminate.
Defined.

(** ** Monotonicity in the capacity *)

Lemma getitem_VOLTAGE_DC_inv capacity v :
  getitem (ElectricalSpecs.VOLTAGE DC) capacity = Return v ->
  (capacity <= 150 /\ v = 500) \/ (300 <= capacity /\ v = 750).
Proof.
  unfold ElectricalSpecs.VOLTAGE; cbn [getitem].
  repeat (destruct (Qeq_bool _ capacity) eqn:E;
          [apply Qeq_bool_eq in E; intros [= <-];
           first [left; split; [lra | reflexivity]
                 | right; split; [lra | reflexivity]]
          | clear E]).
  discriminate.
Qed.

Lemma electrical_current_mono charger_type c1 c2 cfg1 cfg2 :
  c1 < c2 ->
  ElectricalSpecs.configuration charger_type c1 = Return cfg1 ->
  ElectricalSpecs.configuration charger_type c2 = Return cfg2 ->
  phase cfg1 = phase cfg2 ->
  current cfg1 <= current cfg2.
Proof.
  intros Hlt H1 H2 Hphase. destruct charger_type.
  - rewrite electrical_configuration_AC in H1, H2.
    injection H1 as <-. injection H2 as <-.
    destruct (Qeq_bool c1 7) eqn:E1, (Qeq_bool c2 7) eqn:E2;
      simpl in *; try discriminate.
    + apply Qeq_bool_eq in E1, E2. lra.
    + apply div_mono; [lra | reflexivity].
  - destruct (getitem (ElectricalSpecs.VOLTAGE DC) c1) as [v1 | e] eqn:Hv1;
      [| unfold ElectricalSpecs.configuration in H1; rewrite Hv1 in H1;
         discriminate].
    destruct (getitem (ElectricalSpecs.VOLTAGE DC) c2) as [v2 | e] eqn:Hv2;
      [| unfold ElectricalSpecs.configuration in H2; rewrite Hv2 in H2;
         discriminate].
    destruct (electrical_configuration_DC _ _ Hv1) as [H1' _].
    destruct (electrical_configuration_DC _ _ Hv2) as [H2' _].
    rewrite H1' in H1. rewrite H2' in H2.
    injection H1 as <-. injection H2 as <-. simpl.
    apply getitem_VOLTAGE_DC_inv in Hv1, Hv2.
    destruct Hv1 as [[Hc1 ->] | [Hc1 ->]], Hv2 as [[Hc2 ->] | [Hc2 ->]];
      unfold Qdiv;
      change (/ 500) with (1 # 500); change (/ 750) with (1 # 750); lra.
Qed.

Lemma charger_current_mono charger_type c1 c2 params cfg1 cfg2 :
  valid_params params ->
  c1 < c2 ->
  ChargerSpecs.configuration charger_type c1 params = Return cfg1 ->
  ChargerSpecs.configuration charger_type c2 params = Return cfg2 ->
  phase cfg1 = phase cfg2 ->
  current cfg1 <= current cfg2.
Proof.
  intros Hvalid Hlt H1 H2 Hphase. assert (Hs := sqrt3_pos).
  pose proof Hvalid as (_ & _ & _ & _ & Ha & Hd).
  destruct charger_type.
  - rewrite charger_configuration_AC in H1, H2 by assumption.
    injection H1 as <-. injection H2 as <-.
    destruct (Qeq_bool c1 7) eqn:E1, (Qeq_bool c2 7) eqn:E2;
      simpl in *; try discriminate.
    + apply Qeq_bool_eq in E1, E2. lra.
    + apply div_mono; [lra | nra].
  - rewrite charger_configuration_DC in H1, H2 by assumption.
    injection H1 as <-. injection H2 as <-. simpl.
    apply div_mono; [lra | assumption].
Qed.

(** C9.  For two capacities [c1 < c2] of the same charger type that are
    sized successfully with the same phase configuration, the load current,
    the load current the design reports and the selected breaker rating of
    [c2] are at least those of [c1].  In [charger_specs.py] this holds for all
    positive parameters. *)
Theorem sizing_monotone_in_capacity :
  (forall charger_type c1 c2 q1 q2 d1 d2,
      c1 < c2 ->
      ElectricalSpecs.calculate_requirements charger_type c1 q1
        = Return (Some d1) ->
      ElectricalSpecs.calculate_requirements charger_type c2 q2
        = Return (Some d2) ->
      ElectricalSpecs.Phase d1 = ElectricalSpecs.Phase d2 ->
      (exists cfg1 cfg2,
          ElectricalSpecs.configuration charger_type c1 = Return cfg1 /\
          ElectricalSpecs.configuration charger_type c2 = Return cfg2 /\
          current cfg1 <= current cfg2) /\
      ElectricalSpecs.Full_Load_Current_A d1
        <= ElectricalSpecs.Full_Load_Current_A d2 /\
      (ElectricalSpecs.Breaker_Size_A d1
        <= ElectricalSpecs.Breaker_Size_A d2)%Z) /\
  (forall charger_type c1 c2 q1 q2 params d1 d2,
      valid_params params ->
      c1 < c2 ->
      ChargerSpecs.calculate_requirements charger_type c1 q1 params
        = Return (Some d1) ->
      ChargerSpecs.calculate_requirements charger_type c2 q2 params
        = Return (Some d2) ->
      ChargerSpecs.Phase d1 = ChargerSpecs.Phase d2 ->
      (exists cfg1 cfg2,
          ChargerSpecs.configuration charger_type c1 params = Return cfg1 /\
          ChargerSpecs.configuration charger_type c2 params = Return cfg2 /\
          current cfg1 <= current cfg2) /\
      ChargerSpecs.Full_Load_Current_A d1
        <= ChargerSpecs.Full_Load_Current_A d2 /\
      (ChargerSpecs.Breaker_Size_A d1 <= ChargerSpecs.Breaker_Size_A d2)%Z).
Proof.
  split.
  - intros ct c1 c2 q1 q2 d1 d2 Hlt H1 H2 Hphase.
    apply electrical_sizing_inv in H1
      as (cfg1 & Hcfg1 & Hb1 & _ & _ & Hp1 & _ & Hf1 & _).
    apply electrical_sizing_inv in H2
      as (cfg2 & Hcfg2 & Hb2 & _ & _ & Hp2 & _ & Hf2 & _).
    rewrite Hp1, Hp2 in Hphase.
    assert (Hcur := electrical_current_mono _ _ _ _ _ Hlt Hcfg1 Hcfg2 Hphase).
    split; [now exists cfg1, cfg2 |].
    split; [rewrite Hf1, Hf2; now apply round_1_mono |].
    eapply next_rating_mono; [| exact Hb1 | exact Hb2].
    unfold ElectricalSpecs.derated_current. lra.
  - intros ct c1 c2 q1 q2 p d1 d2 Hvalid Hlt H1 H2 Hphase.
    apply charger_sizing_inv in H1
      as (cfg1 & Hcfg1 & Hb1 & _ & _ & Hp1 & _ & Hf1 & _).
    apply charger_sizing_inv in H2
      as (cfg2 & Hcfg2 & Hb2 & _ & _ & Hp2 & _ & Hf2 & _).
    rewrite Hp1, Hp2 in Hphase.
    assert (Hcur := charger_current_mono _ _ _ _ _ _ Hvalid Hlt Hcfg1 Hcfg2
                      Hphase).
    split; [now exists cfg1, cfg2 |].
    split; [rewrite Hf1, Hf2; now apply round_1_mono |].
    eapply next_rating_mono; [| exact Hb1 | exact Hb2].
    unfold ChargerSpecs.derated_current.
    destruct Hvalid as (Hs & _). nra.
Qed.

(** 150 kW and 300 kW DC chargers in [electrical_specs.py]: the voltage
    changes from 500 V to 750 V between them. *)
Lemma sizing_monotone_in_capacity_witness :
  exists d1 d2,
    ElectricalSpecs.calculate_requirements DC 150 1 = Return (Some d1) /\
    ElectricalSpecs.calculate_requirements DC 300 1 = Return (Some d2) /\
    150 < 300 /\
    ElectricalSpecs.Phase d1 = ElectricalSpecs.Phase d2 /\
    ElectricalSpecs.Full_Load_Current_A d1
      <= ElectricalSpecs.Full_Load_Current_A d2 /\
    (ElectricalSpecs.Breaker_Size_A d1 <= ElectricalSpecs.Breaker_Size_A d2)%Z.
Proof.
  do 2 eexists.
  split; [vm_compute; reflexivity |].
  split; [vm_compute; reflexivity |].
  split; [reflexivity |].
  split; [reflexivity |].
  edestruct (proj1 sizing_monotone_in_capacity DC 150 300 1%Z 1%Z)
    as (_ & Hf & Hb);
    [reflexivity | vm_compute; reflexivity | vm_compute; reflexivity
    | reflexivity |].
  split; [exact Hf | exact Hb].
Defined.

(** ** Main breaker and board *)

Lemma busbars_sorted : StronglySorted Z.lt BUSBARS.
Proof. unfold BUSBARS. sorted_by_computation. Qed.

Lemma find_map {A B : Type} (g : A -> B) (f : B -> bool) (l : list A) (a : A) :
  find (fun x => f (g x)) l = Some a ->
  find f (map g l) = Some (g a) /\ In a l.
Proof.
  induction l as [| x l IH]; simpl; [discriminate |].
  destruct (f (g x)).
  - intros [= <-]; auto.
  - intros H; destruct (IH H); auto.
Qed.

Lemma electrical_next_msb_busbar (x : Q) msb :
  ElectricalSpecs.next_msb x = Some msb ->
  next_rating BUSBARS x = Some (ElectricalSpecs.Busbar_A msb) /\
  ElectricalSpecs.Amps msb = ElectricalSpecs.Busbar_A msb.
Proof.
  unfold ElectricalSpecs.next_msb; intros H.
  apply (find_map ElectricalSpecs.Busbar_A
           (fun b => Qle_bool x (inject_Z b))) in H as [H Hin].
  split; [exact H |].
  unfold ElectricalSpecs.MSB_CONFIGS in Hin; simpl in Hin.
  repeat (destruct Hin as [<- | Hin]; [reflexivity |]). contradiction.
Qed.

Lemma charger_next_msb_busbar (x : Q) msb :
  ChargerSpecs.next_msb x = Some msb ->
  next_rating BUSBARS x = Some (ChargerSpecs.Busbar msb) /\
  ChargerSpecs.Amps msb = ChargerSpecs.Busbar msb.
Proof.
  unfold ChargerSpecs.next_msb; intros H.
  apply (find_map ChargerSpecs.Busbar
           (fun b => Qle_bool x (inject_Z b))) in H as [H Hin].
  split; [exact H |].
  unfold ChargerSpecs.MSB_CONFIGS in Hin; simpl in Hin.
  repeat (destruct Hin as [<- | Hin]; [reflexivity |]). contradiction.
Qed.

Lemma next_rating_le (ladder : list Z) (x : Q) (b L : Z) :
  StronglySorted Z.lt ladder ->
  next_rating ladder x = Some b ->
  In L ladder -> x <= inject_Z L -> (b <= L)%Z.
Proof.
  intros Hsorted Hb HL Hx.
  destruct (next_rating_sorted _ _ _ Hsorted Hb) as (_ & _ & Hmin).
  destruct (Z_lt_le_dec L b) as [Hlt | Hle]; [| assumption].
  exfalso; exact (Hmin L HL Hlt Hx).
Qed.

Lemma next_rating_gt (ladder : list Z) (x : Q) (b k : Z) :
  next_rating ladder x = Some b -> inject_Z k < x -> (k < b)%Z.
Proof.
  unfold next_rating; intros Hb Hk.
  destruct (find_some _ _ Hb) as [_ Hle]. apply Qle_bool_iff in Hle.
  rewrite Zlt_Qlt. lra.
Qed.

(** How the two selections made from the diversified current relate. *)
Lemma breaker_vs_busbar (x : Q) (b B : Z) :
  next_rating ElectricalSpecs.STANDARD_BREAKERS x = Some b ->
  next_rating BUSBARS x = Some B ->
  x <= inject_Z B /\
  (~ (500 < x /\ x <= 600) -> (b <= B)%Z) /\
  (500 < x -> x <= 600 -> b = 630%Z /\ B = 600%Z).
Proof.
  intros Hb HB.
  destruct (next_rating_sorted _ _ _ ladder_sorted Hb) as (Hinb & Hxb & _).
  destruct (next_rating_sorted _ _ _ busbars_sorted HB) as (HinB & HxB & HminB).
  assert (Hb2000 := ladder_positive b Hinb).
  split; [exact HxB |]. split.
  - intros Hnot.
    unfold BUSBARS in HinB; simpl in HinB.
    repeat (destruct HinB as [<- | HinB];
            [first
               [ apply (next_rating_le _ x b _ ladder_sorted Hb);
                 [unfold ElectricalSpecs.STANDARD_BREAKERS; simpl; tauto
                 | exact HxB]
               | destruct (Qlt_le_dec 500 x) as [H500 | H500];
                 [ exfalso; apply Hnot; split; [exact H500 | exact HxB]
                 | assert (b <= 500)%Z
                     by (apply (next_rating_le _ x b _ ladder_sorted Hb);
                         [unfold ElectricalSpecs.STANDARD_BREAKERS; simpl; tauto
                         | exact H500]);
                   lia ]
               | exfalso; apply (HminB 2000%Z);
                 [ unfold BUSBARS; simpl; tauto
                 | lia
                 | apply (Qle_trans _ _ _ Hxb); rewrite <- Zle_Qle; lia ] ]
            |]).
    contradiction.
  - intros H500 H600. split.
    + assert (b <= 630)%Z.
      { apply (next_rating_le _ x b _ ladder_sorted Hb);
          [unfold ElectricalSpecs.STANDARD_BREAKERS; simpl; tauto |].
        change (inject_Z 630) with 630. lra. }
      assert (500 < b)%Z by (apply (next_rating_gt _ x b 500 Hb); exact H500).
      unfold ElectricalSpecs.STANDARD_BREAKERS in Hinb; simpl in Hinb.
      repeat (destruct Hinb as [<- | Hinb]; [lia |]). contradiction.
    + assert (B <= 600)%Z.
      { apply (next_rating_le _ x B _ busbars_sorted HB);
          [unfold BUSBARS; simpl; tauto | exact H600]. }
      assert (500 < B)%Z by (apply (next_rating_gt _ x B 500 HB); exact H500).
      unfold BUSBARS in HinB; simpl in HinB.
      repeat (destruct HinB as [<- | HinB]; [lia |]). contradiction.
Qed.

(** C10, amended.  When [calculate_msb] returns a design, the recommended
    board is the catalog entry selected from the diversified current; its
    busbar rating is at least the diversified current, and it is at least the
    main breaker rating whenever the diversified current is not above 500 A
    and at most 600 A. *)
Theorem board_busbar_vs_main_breaker :
  (forall chargers d,
      ElectricalSpecs.calculate_msb chargers = Return (Some d) ->
      let x := ElectricalSpecs.diversified_current chargers in
      exists msb,
        ElectricalSpecs.next_msb x = Some msb /\
        ElectricalSpecs.Recommended_MSB_Size_A d = ElectricalSpecs.Amps msb /\
        x <= inject_Z (ElectricalSpecs.Busbar_A msb) /\
        (~ (500 < x /\ x <= 600) ->
         (ElectricalSpecs.Main_Breaker_Size_A d
          <= ElectricalSpecs.Busbar_A msb)%Z)) /\
  (forall chargers params d,
      ChargerSpecs.calculate_msb chargers params = Return (Some d) ->
      let x := ChargerSpecs.diversified_current chargers params in
      exists msb,
        ChargerSpecs.next_msb x = Some msb /\
        ChargerSpecs.Recommended_MSB_Size_A d = ChargerSpecs.Amps msb /\
        x <= inject_Z (ChargerSpecs.Busbar msb) /\
        (~ (500 < x /\ x <= 600) ->
         (ChargerSpecs.Main_Breaker_Size_A d <= ChargerSpecs.Busbar msb)%Z)).
Proof.
  split.
  - intros chargers d Hd x; subst x.
    unfold ElectricalSpecs.calculate_msb in Hd; cbv zeta in Hd.
    fold (ElectricalSpecs.diversified_current chargers) in Hd.
    destruct (next_rating ElectricalSpecs.STANDARD_BREAKERS
                (ElectricalSpecs.diversified_current chargers))
      as [b |] eqn:Hb; [| discriminate].
    destruct (falsy_Z b); [discriminate |].
    destruct (ElectricalSpecs.next_msb _) as [msb |] eqn:Hmsb;
      [| discriminate].
    injection Hd as <-. cbn [ElectricalSpecs.Recommended_MSB_Size_A
                              ElectricalSpecs.Main_Breaker_Size_A].
    exists msb. split; [reflexivity |]. split; [reflexivity |].
    apply electrical_next_msb_busbar in Hmsb as [HB _].
    destruct (breaker_vs_busbar _ _ _ Hb HB) as (Hx & Hle & _).
    split; assumption.
  - intros chargers params d Hd x; subst x.
    unfold ChargerSpecs.calculate_msb in Hd; cbv zeta in Hd.
    fold (ChargerSpecs.diversified_current chargers params) in Hd.
    rewrite same_ladder in Hd.
    destruct (next_rating ElectricalSpecs.STANDARD_BREAKERS
                (ChargerSpecs.diversified_current chargers params))
      as [b |] eqn:Hb; [| discriminate].
    destruct (falsy_Z b); [discriminate |].
    destruct (ChargerSpecs.next_msb _) as [msb |] eqn:Hmsb; [| discriminate].
    injection Hd as <-. cbn [ChargerSpecs.Recommended_MSB_Size_A
                              ChargerSpecs.Main_Breaker_Size_A].
    exists msb. split; [reflexivity |]. split; [reflexivity |].
    apply charger_next_msb_busbar in Hmsb as [HB _].
    destruct (breaker_vs_busbar _ _ _ Hb HB) as (Hx & Hle & _).
    split; assumption.
Qed.

(** The aggregation scenario of the specification: one 7 kW and one 22 kW
    AC charger give an 80 A main breaker in a 100 A board. *)
Lemma board_busbar_vs_main_breaker_witness :
  exists d7 d22 d,
    ElectricalSpecs.calculate_requirements AC 7 1 = Return (Some d7) /\
    ElectricalSpecs.calculate_requirements AC 22 1 = Return (Some d22) /\
    let chargers :=
      [ElectricalSpecs.mkCharger AC 7 1 d7;
       ElectricalSpecs.mkCharger AC 22 1 d22] in
    ElectricalSpecs.calculate_msb chargers = Return (Some d) /\
    exists msb,
      ElectricalSpecs.next_msb (ElectricalSpecs.diversified_current chargers)
        = Some msb /\
      ElectricalSpecs.Recommended_MSB_Size_A d = ElectricalSpecs.Amps msb /\
      (ElectricalSpecs.Main_Breaker_Size_A d
       <= ElectricalSpecs.Busbar_A msb)%Z.
Proof.
  do 3 eexists.
  split; [vm_compute; reflexivity |].
  split; [vm_compute; reflexivity |].
  cbv zeta.
  split; [vm_compute; reflexivity |].
  lazymatch goal with
  | |- exists msb,
         ElectricalSpecs.next_msb (ElectricalSpecs.diversified_current ?cs) = _
         /\ ElectricalSpecs.Recommended_MSB_Size_A ?d = _ /\ _ =>
      destruct (proj1 board_busbar_vs_main_breaker cs d)
        as (msb & Hm & Hr & _ & Hle); [vm_compute; reflexivity |]
  end.
  exists msb. split; [exact Hm |]. split; [exact Hr |].
  apply Hle. intros [H _]. vm_compute in H. discriminate H.
Defined.

(** C10 as stated fails.  In [electrical_specs.py] one 300 kW DC charger
    gives a diversified current of 539.7 A: the main breaker is 630 A and the
    recommended board is the 600 A entry, busbar 600 A.  In
    [charger_specs.py] two 150 kW DC chargers at the default parameters give
    the same pair. *)
Lemma board_busbar_below_main_breaker :
  (exists d300 d msb,
      ElectricalSpecs.calculate_requirements DC 300 1 = Return (Some d300) /\
      let chargers := [ElectricalSpecs.mkCharger DC 300 1 d300] in
      ElectricalSpecs.calculate_msb chargers = Return (Some d) /\
      ElectricalSpecs.next_msb (ElectricalSpecs.diversified_current chargers)
        = Some msb /\
      ElectricalSpecs.Recommended_MSB_Size_A d = ElectricalSpecs.Amps msb /\
      ElectricalSpecs.Main_Breaker_Size_A d = 630%Z /\
      ElectricalSpecs.Busbar_A msb = 600%Z /\
      ~ (ElectricalSpecs.Main_Breaker_Size_A d
         <= ElectricalSpecs.Busbar_A msb)%Z) /\
  (exists d150 d msb,
      let params := ChargerSpecs.default_params in
      ChargerSpecs.calculate_requirements DC 150 1 params
        = Return (Some d150) /\
      let chargers :=
        [ChargerSpecs.mkCharger DC 150 1 d150;
         ChargerSpecs.mkCharger DC 150 1 d150] in
      ChargerSpecs.calculate_msb chargers params = Return (Some d) /\
      ChargerSpecs.next_msb (ChargerSpecs.diversified_current chargers params)
        = Some msb /\
      ChargerSpecs.Recommended_MSB_Size_A d = ChargerSpecs.Amps msb /\
      ChargerSpecs.Main_Breaker_Size_A d = 630%Z /\
      ChargerSpecs.Busbar msb = 600%Z /\
      ~ (ChargerSpecs.Main_Breaker_Size_A d <= ChargerSpecs.Busbar msb)%Z).
Proof.
  split; do 3 eexists; cbv zeta;
    repeat (split; [vm_compute; reflexivity |]);
    vm_compute; intros H; apply H; reflexivity.
Qed.

(** ** Currents above the largest breaker *)








(** * Further properties of the two files *)

(** ** The standards tables *)

Lemma size_and_ampacity_sorted c :
  StronglySorted size_and_ampacity_lt (ElectricalSpecs.CABLE_CAPACITY c).
Proof.
  destruct c; unfold ElectricalSpecs.CABLE_CAPACITY;
    repeat (first [ apply SSorted_nil | apply SSorted_cons
                  | apply Forall_nil | apply Forall_cons
                  | split; reflexivity ]).
Qed.

(** X1.  The breaker ladder is strictly increasing; in every ampacity table
    a larger cross-section has a larger ampacity; the board catalog is in
    strictly increasing order of rating and each entry's busbar rating is its
    rating; and the two files carry the same three tables. *)
Theorem standards_tables_well_formed :
  StronglySorted Z.lt ElectricalSpecs.STANDARD_BREAKERS /\
  (forall c,
      StronglySorted size_and_ampacity_lt (ElectricalSpecs.CABLE_CAPACITY c)) /\
  StronglySorted Z.lt (map ElectricalSpecs.Amps ElectricalSpecs.MSB_CONFIGS) /\
  Forall (fun msb => ElectricalSpecs.Busbar_A msb = ElectricalSpecs.Amps msb)
    ElectricalSpecs.MSB_CONFIGS /\
  ChargerSpecs.STANDARD_BREAKERS = ElectricalSpecs.STANDARD_BREAKERS /\
  (forall c, ChargerSpecs.CABLE_CAPACITY c = ElectricalSpecs.CABLE_CAPACITY c) /\
  map (fun msb => (ChargerSpecs.Amps msb, ChargerSpecs.Dimensions msb,
                   ChargerSpecs.Busbar msb)) ChargerSpecs.MSB_CONFIGS
  = map (fun msb => (ElectricalSpecs.Amps msb, ElectricalSpecs.Dimensions_mm msb,
                     ElectricalSpecs.Busbar_A msb)) ElectricalSpecs.MSB_CONFIGS.
Proof.
  split; [exact ladder_sorted |].
  split; [exact size_and_ampacity_sorted |].
  split; [simpl; sorted_by_computation |].
  split; [repeat constructor |].
  split; [reflexivity |].
  split; [exact same_cable_table | reflexivity].
Qed.

(** ** When sizing raises *)

Lemma falsy_ladder b :
  In b ElectricalSpecs.STANDARD_BREAKERS -> falsy_Z b = false.
Proof.
  intros H; apply ladder_positive in H. unfold falsy_Z. lia.
Qed.

Lemma falsy_cable c size ampacity :
  In (size, ampacity) (ElectricalSpecs.CABLE_CAPACITY c) ->
  falsy_Q size = false.
Proof.
  destruct c; unfold ElectricalSpecs.CABLE_CAPACITY; simpl; intros H;
    repeat (destruct H as [[= <- <-] | H]; [reflexivity |]); contradiction.
Qed.

(** Once the configuration is resolved, sizing returns: a design when a
    breaker and a cable are found, [None] otherwise. *)
Lemma electrical_sizing_of_cfg charger_type capacity quantity cfg :
  ElectricalSpecs.configuration charger_type capacity = Return cfg ->
  match next_rating ElectricalSpecs.STANDARD_BREAKERS
          (ElectricalSpecs.derated_current cfg) with
  | None =>
      ElectricalSpecs.calculate_requirements charger_type capacity quantity
        = Return None
  | Some b =>
      match next_cable (ElectricalSpecs.CABLE_CAPACITY (cores cfg)) b with
      | None =>
          ElectricalSpecs.calculate_requirements charger_type capacity quantity
            = Return None
      | Some _ =>
          exists d,
            ElectricalSpecs.calculate_requirements charger_type capacity
              quantity = Return (Some d)
      end
  end.
Proof.
  intros Hcfg. unfold ElectricalSpecs.calculate_requirements.
  rewrite Hcfg; cbv beta iota zeta delta [bind].
  destruct (next_rating ElectricalSpecs.STANDARD_BREAKERS
              (ElectricalSpecs.derated_current cfg)) as [b |] eqn:Hb;
    [| reflexivity].
  rewrite (falsy_ladder b) by (now apply next_rating_spec in Hb).
  destruct (next_cable _ b) as [[size ampacity] |] eqn:Hc; [| reflexivity].
  rewrite (falsy_cable (cores cfg) size ampacity)
    by (now apply next_cable_spec in Hc).
  eexists; reflexivity.
Qed.

Lemma charger_sizing_of_cfg charger_type capacity quantity params cfg :
  ChargerSpecs.configuration charger_type capacity params = Return cfg ->
  match next_rating ElectricalSpecs.STANDARD_BREAKERS
          (ChargerSpecs.derated_current cfg params) with
  | None =>
      ChargerSpecs.calculate_requirements charger_type capacity quantity params
        = Return None
  | Some b =>
      match next_cable (ElectricalSpecs.CABLE_CAPACITY (cores cfg)) b with
      | None =>
          ChargerSpecs.calculate_requirements charger_type capacity quantity
            params = Return None
      | Some _ =>
          exists d,
            ChargerSpecs.calculate_requirements charger_type capacity
              quantity params = Return (Some d)
      end
  end.
Proof.
  intros Hcfg. unfold ChargerSpecs.calculate_requirements.
  rewrite Hcfg; cbv beta iota zeta delta [bind].
  change ChargerSpecs.STANDARD_BREAKERS with ElectricalSpecs.STANDARD_BREAKERS.
  change ChargerSpecs.CABLE_CAPACITY with ElectricalSpecs.CABLE_CAPACITY.
  destruct (next_rating ElectricalSpecs.STANDARD_BREAKERS
              (ChargerSpecs.derated_current cfg params)) as [b |] eqn:Hb;
    [| reflexivity].
  rewrite (falsy_ladder b) by (now apply next_rating_spec in Hb).
  destruct (next_cable _ b) as [[size ampacity] |] eqn:Hc;
    cbv beta iota zeta delta [option_map fst]; [| reflexivity].
  rewrite (falsy_cable (cores cfg) size ampacity)
    by (now apply next_cable_spec in Hc).
  rewrite (getitem_cable (cores cfg) size ampacity)
    by (now apply next_cable_spec in Hc).
  eexists; reflexivity.
Qed.











(** ** When sizing finds a breaker and a cable *)

Lemma next_cable_total c b :
  In b ElectricalSpecs.STANDARD_BREAKERS ->
  if Qle_bool (inject_Z b) (largest_breaker_with_cable c)
  then exists item, next_cable (ElectricalSpecs.CABLE_CAPACITY c) b = Some item
  else next_cable (ElectricalSpecs.CABLE_CAPACITY c) b = None.
Proof.
  unfold ElectricalSpecs.STANDARD_BREAKERS; simpl; intros H.
  destruct c;
    repeat (destruct H as [<- | H];
            [vm_compute; first [reflexivity | eexists; reflexivity] |]);
    contradiction.
Qed.

Lemma largest_breaker_on_ladder c :
  exists L, In L ElectricalSpecs.STANDARD_BREAKERS /\
            largest_breaker_with_cable c = inject_Z L.
Proof.
  destruct c; [exists 630%Z | exists 630%Z | exists 500%Z | exists 500%Z];
    (split; [unfold ElectricalSpecs.STANDARD_BREAKERS; simpl; tauto
            | reflexivity]).
Qed.

Lemma cable_for_breaker c (x : Q) (b : Z) :
  next_rating ElectricalSpecs.STANDARD_BREAKERS x = Some b ->
  (x <= largest_breaker_with_cable c ->
   exists item, next_cable (ElectricalSpecs.CABLE_CAPACITY c) b = Some item) /\
  (largest_breaker_with_cable c < x ->
   next_cable (ElectricalSpecs.CABLE_CAPACITY c) b = None).
Proof.
  intros Hb.
  destruct (next_rating_spec _ _ Hb) as (Hin & Hle & _).
  assert (Ht := next_cable_total c b Hin).
  destruct (largest_breaker_on_ladder c) as (L & HL & HeqL).
  split; intros Hx.
  - assert (HbL : (b <= L)%Z).
    { apply (next_rating_le _ x b L ladder_sorted Hb HL).
      now rewrite <- HeqL. }
    assert (Hq : Qle_bool (inject_Z b) (largest_breaker_with_cable c) = true).
    { apply Qle_bool_iff. rewrite HeqL, <- Zle_Qle. exact HbL. }
    now rewrite Hq in Ht.
  - destruct (Qle_bool (inject_Z b) (largest_breaker_with_cable c)) eqn:Hq;
      [| assumption].
    apply Qle_bool_iff in Hq. lra.
Qed.

Lemma largest_breaker_below_ladder_top c :
  largest_breaker_with_cable c <= 2000.
Proof. destruct c; discriminate. Qed.

(** X4.  Once the configuration of a charger is resolved, sizing returns a
    design exactly when the derated load current is at most 630 A on a
    one- or two-core cable and at most 500 A on a three- or four-core cable;
    above that it returns [None].  The bound is the largest breaker that an
    entry of the ampacity table can follow, so every breaker above 630 A
    (500 A) of the ladder is out of reach of sizing. *)
Theorem sizing_succeeds_up_to_cable_limit :
  (forall charger_type capacity quantity cfg,
      ElectricalSpecs.configuration charger_type capacity = Return cfg ->
      (ElectricalSpecs.derated_current cfg
         <= largest_breaker_with_cable (cores cfg) ->
       exists d,
         ElectricalSpecs.calculate_requirements charger_type capacity quantity
           = Return (Some d)) /\
      (largest_breaker_with_cable (cores cfg)
         < ElectricalSpecs.derated_current cfg ->
       ElectricalSpecs.calculate_requirements charger_type capacity quantity
         = Return None)) /\
  (forall charger_type capacity quantity params cfg,
      ChargerSpecs.configuration charger_type capacity params = Return cfg ->
      (ChargerSpecs.derated_current cfg params
         <= largest_breaker_with_cable (cores cfg) ->
       exists d,
         ChargerSpecs.calculate_requirements charger_type capacity quantity
           params = Return (Some d)) /\
      (largest_breaker_with_cable (cores cfg)
         < ChargerSpecs.derated_current cfg params ->
       ChargerSpecs.calculate_requirements charger_type capacity quantity
         params = Return None)).
Proof.
  split.
  - intros ct cap q cfg Hcfg.
    assert (H := electrical_sizing_of_cfg _ _ q _ Hcfg).
    assert (Htop := largest_breaker_below_ladder_top (cores cfg)).
    destruct (next_rating ElectricalSpecs.STANDARD_BREAKERS
                (ElectricalSpecs.derated_current cfg)) as [b |] eqn:Hb.
    + destruct (cable_for_breaker (cores cfg) _ _ Hb) as [Hsome Hnone].
      split; intros Hx.
      * destruct (Hsome Hx) as [item Hitem]. now rewrite Hitem in H.
      * now rewrite (Hnone Hx) in H.
    + apply next_rating_None in Hb.
      split; intros Hx; [lra | exact H].
  - intros ct cap q p cfg Hcfg.
    assert (H := charger_sizing_of_cfg _ _ q _ _ Hcfg).
    assert (Htop := largest_breaker_below_ladder_top (cores cfg)).
    destruct (next_rating ElectricalSpecs.STANDARD_BREAKERS
                (ChargerSpecs.derated_current cfg p)) as [b |] eqn:Hb.
    + destruct (cable_for_breaker (cores cfg) _ _ Hb) as [Hsome Hnone].
      split; intros Hx.
      * destruct (Hsome Hx) as [item Hitem]. now rewrite Hitem in H.
      * now rewrite (Hnone Hx) in H.
    + apply next_rating_None in Hb.
      split; intros Hx; [lra | exact H].
Qed.

(** A 300 kW DC charger at the default 500 V needs 750 A and gets no
    design. *)
Lemma sizing_succeeds_up_to_cable_limit_witness :
  exists cfg,
    ChargerSpecs.configuration DC 300 ChargerSpecs.default_params
      = Return cfg /\
    largest_breaker_with_cable (cores cfg)
      < ChargerSpecs.derated_current cfg ChargerSpecs.default_params /\
    ChargerSpecs.calculate_requirements DC 300 1 ChargerSpecs.default_params
      = Return None.
Proof.
  eexists; split; [vm_compute; reflexivity |].
  split; [reflexivity |].
  eapply (proj2 sizing_succeeds_up_to_cable_limit DC 300 1%Z);
    [vm_compute; reflexivity | reflexivity].
Defined.

(** ** The chargers on the menu *)

(** X5.  Every charger the page of [electrical_specs.py] offers is sized
    successfully, whatever the quantity.  With the default parameters the
    page of [charger_specs.py] sizes every charger it offers except the
    300 kW and 350 kW DC chargers, for which it gets [None]. *)
Theorem menu_chargers_sized :
  (forall charger_type capacity quantity,
      on_menu charger_type capacity ->
      exists d,
        ElectricalSpecs.calculate_requirements charger_type capacity quantity
          = Return (Some d)) /\
  (forall charger_type capacity quantity,
      on_menu charger_type capacity ->
      if match charger_type with
         | DC => Qle_bool 300 capacity
         | AC => false
         end
      then ChargerSpecs.calculate_requirements charger_type capacity quantity
             ChargerSpecs.default_params = Return None
      else exists d,
             ChargerSpecs.calculate_requirements charger_type capacity quantity
               ChargerSpecs.default_params = Return (Some d)).
Proof.
  split; intros ct cap q Hmenu; destruct ct;
    unfold on_menu, AC_CAPACITIES, DC_CAPACITIES in Hmenu; simpl in Hmenu;
    repeat (destruct Hmenu as [<- | Hmenu];
            [cbv beta iota;
             first [ vm_compute; reflexivity
                   | eexists; vm_compute; reflexivity ] |]);
    contradiction.
Qed.

Lemma menu_chargers_sized_witness :
  on_menu DC 350 /\
  exists d, ElectricalSpecs.calculate_requirements DC 350 2 = Return (Some d).
Proof.
  split; [unfold on_menu, DC_CAPACITIES; simpl; tauto |].
  apply (proj1 menu_chargers_sized DC 350 2%Z).
  unfold on_menu, DC_CAPACITIES; simpl; tauto.
Defined.

(** ** The figures a design reports *)

Lemma electrical_sizing_design charger_type capacity quantity d :
  ElectricalSpecs.calculate_requirements charger_type capacity quantity
    = Return (Some d) ->
  exists cfg b size ampacity,
    ElectricalSpecs.configuration charger_type capacity = Return cfg /\
    next_rating ElectricalSpecs.STANDARD_BREAKERS
      (ElectricalSpecs.derated_current cfg) = Some b /\
    next_cable (ElectricalSpecs.CABLE_CAPACITY (cores cfg)) b
      = Some (size, ampacity) /\
    d = ElectricalSpecs.mkCircuitDesign (voltage cfg) (phase cfg)
          (round (current cfg) 1)
          (round (ElectricalSpecs.derated_current cfg) 1)
          match charger_type with
          | DC => round (ac_current cfg) 1
          | AC => round (current cfg) 1
          end
          match charger_type with
          | DC => round (ElectricalSpecs.derated_ac_current cfg) 1
          | AC => round (ElectricalSpecs.derated_current cfg) 1
          end
          b
          (ElectricalSpecs.breaker_spec charger_type capacity b (voltage cfg))
          size (cores cfg) ampacity (cores cfg) capacity charger_type.
Proof.
  unfold ElectricalSpecs.calculate_requirements.
  destruct (ElectricalSpecs.configuration charger_type capacity) as [cfg | e];
    cbv beta iota zeta delta [bind]; [| discriminate].
  destruct (next_rating ElectricalSpecs.STANDARD_BREAKERS
              (ElectricalSpecs.derated_current cfg)) as [b |] eqn:Hb;
    [| discriminate].
  destruct (falsy_Z b); [discriminate |].
  destruct (next_cable _ b) as [[size ampacity] |] eqn:Hc; [| discriminate].
  destruct (falsy_Q size); [discriminate |].
  intros [= <-]. exists cfg, b, size, ampacity. auto.
Qed.

Lemma charger_sizing_design charger_type capacity quantity params d :
  ChargerSpecs.calculate_requirements charger_type capacity quantity params
    = Return (Some d) ->
  exists cfg b size ampacity,
    ChargerSpecs.configuration charger_type capacity params = Return cfg /\
    next_rating ElectricalSpecs.STANDARD_BREAKERS
      (ChargerSpecs.derated_current cfg params) = Some b /\
    next_cable (ElectricalSpecs.CABLE_CAPACITY (cores cfg)) b
      = Some (size, ampacity) /\
    d = ChargerSpecs.mkCircuitDesign (voltage cfg) (phase cfg)
          (round (current cfg) 1)
          (round (ChargerSpecs.derated_current cfg params) 1)
          (round (ac_current cfg) 1)
          (round (ChargerSpecs.derated_ac_current cfg params) 1)
          b
          (ChargerSpecs.breaker_spec charger_type capacity b (voltage cfg)
             params)
          size (cores cfg) ampacity (cores cfg) capacity charger_type.
Proof.
  unfold ChargerSpecs.calculate_requirements.
  destruct (ChargerSpecs.configuration charger_type capacity params)
    as [cfg | e]; cbv beta iota zeta delta [bind]; [| discriminate].
  change ChargerSpecs.STANDARD_BREAKERS with ElectricalSpecs.STANDARD_BREAKERS.
  change ChargerSpecs.CABLE_CAPACITY with ElectricalSpecs.CABLE_CAPACITY.
  destruct (next_rating ElectricalSpecs.STANDARD_BREAKERS
              (ChargerSpecs.derated_current cfg params)) as [b |] eqn:Hb;
    [| discriminate].
  destruct (falsy_Z b); [discriminate |].
  destruct (next_cable _ b) as [[size ampacity] |] eqn:Hc;
    cbv beta iota zeta delta [option_map fst]; [| discriminate].
  destruct (falsy_Q size); [discriminate |].
  rewrite (getitem_cable (cores cfg) size ampacity)
    by (now apply next_cable_spec in Hc).
  intros [= <-]. exists cfg, b, size, ampacity. auto.
Qed.

Lemma round_half_even_Z (n : Z) : round_half_even (inject_Z n) = n.
Proof.
  unfold round_half_even. rewrite Qfloor_Z.
  assert (H : Qcompare (inject_Z n - inject_Z n) (1 # 2) = Lt).
  { apply (proj1 (Qlt_alt _ _)).
    assert (H0 : inject_Z n - inject_Z n == 0) by ring.
    rewrite H0. reflexivity. }
  now rewrite H.
Qed.

(** Rounding to one decimal leaves an integer as it is. *)
Lemma round_1_Z (n : Z) : round (inject_Z n) 1 == inject_Z n.
Proof.
  unfold round. change (10 ^ 1) with (inject_Z 10).
  rewrite (round_half_even_comp _ (inject_Z (n * 10)))
    by (rewrite inject_Z_mult; reflexivity).
  rewrite round_half_even_Z, inject_Z_mult.
  change (inject_Z 10) with 10. field.
Qed.

Lemma round_1_le_Z (x : Q) (n : Z) : x <= inject_Z n -> round x 1 <= inject_Z n.
Proof.
  intros H. rewrite <- (round_1_Z n). now apply round_1_mono.
Qed.

(** X6.  The figures of a design are consistent after rounding: the derated
    current it reports is at most the breaker rating, which is at most the
    cable ampacity; and for a non-negative capacity the reported full-load
    current is at most the reported derated current (in [charger_specs.py]
    when the parameters are positive and the safety factor is at least 1). *)
Theorem reported_figures_consistent :
  (forall charger_type capacity quantity d,
      ElectricalSpecs.calculate_requirements charger_type capacity quantity
        = Return (Some d) ->
      ElectricalSpecs.Derated_Current_A d
        <= inject_Z (ElectricalSpecs.Breaker_Size_A d) /\
      inject_Z (ElectricalSpecs.Breaker_Size_A d)
        <= ElectricalSpecs.Cable_Capacity_A d /\
      (0 <= capacity ->
       ElectricalSpecs.Full_Load_Current_A d
         <= ElectricalSpecs.Derated_Current_A d)) /\
  (forall charger_type capacity quantity params d,
      ChargerSpecs.calculate_requirements charger_type capacity quantity params
        = Return (Some d) ->
      ChargerSpecs.Derated_Current_A d
        <= inject_Z (ChargerSpecs.Breaker_Size_A d) /\
      inject_Z (ChargerSpecs.Breaker_Size_A d)
        <= ChargerSpecs.Cable_Capacity_A d /\
      (0 <= capacity -> valid_params params ->
       1 <= ChargerSpecs.safety_factor params ->
       ChargerSpecs.Full_Load_Current_A d
         <= ChargerSpecs.Derated_Current_A d)).
Proof.
  split.
  - intros ct cap q d H.
    apply electrical_sizing_design in H
      as (cfg & b & size & amp & Hcfg & Hb & Hc & ->); simpl.
    apply next_rating_spec in Hb as (_ & Hle & _).
    apply next_cable_spec in Hc as (_ & Hamp & _).
    split; [now apply round_1_le_Z |]. split; [assumption |].
    intros Hcap.
    destruct (electrical_configuration_nonneg _ _ _ Hcap Hcfg) as [Hcur _].
    apply round_1_mono. unfold ElectricalSpecs.derated_current. lra.
  - intros ct cap q p d H.
    apply charger_sizing_design in H
      as (cfg & b & size & amp & Hcfg & Hb & Hc & ->); simpl.
    apply next_rating_spec in Hb as (_ & Hle & _).
    apply next_cable_spec in Hc as (_ & Hamp & _).
    split; [now apply round_1_le_Z |]. split; [assumption |].
    intros Hcap Hvalid Hsafety.
    destruct (charger_configuration_nonneg _ _ _ _ Hcap Hvalid Hcfg)
      as [Hcur _].
    apply round_1_mono. unfold ChargerSpecs.derated_current. nra.
Qed.

Lemma reported_figures_consistent_witness :
  exists d,
    ElectricalSpecs.calculate_requirements AC 22 1 = Return (Some d) /\
    ElectricalSpecs.Derated_Current_A d
      <= inject_Z (ElectricalSpecs.Breaker_Size_A d) /\
    ElectricalSpecs.Full_Load_Current_A d
      <= ElectricalSpecs.Derated_Current_A d.
Proof.
  eexists; split; [vm_compute; reflexivity |].
  edestruct (proj1 reported_figures_consistent AC 22 1%Z) as (H1 & _ & H2);
    [vm_compute; reflexivity |].
  split; [exact H1 | apply H2; discriminate].
Defined.

(** ** The two files at the default parameters *)

(** X7.  With the default parameters [charger_specs.py] sizes a charger as
    [electrical_specs.py] does, for every AC capacity and for every DC
    capacity that [VOLTAGE["DC"]] maps to 500 V: both return [None], or both
    return designs with the same voltage, phase, currents, breaker and cable.
    Only the protective-device annotation may differ. *)
Theorem files_agree_at_default_parameters charger_type capacity quantity :
  charger_type = AC \/
  getitem (ElectricalSpecs.VOLTAGE DC) capacity = Return 500 ->
  exists re rc,
    ElectricalSpecs.calculate_requirements charger_type capacity quantity
      = Return re /\
    ChargerSpecs.calculate_requirements charger_type capacity quantity
      ChargerSpecs.default_params = Return rc /\
    match re, rc with
    | Some e, Some c => same_figures e c
    | None, None => True
    | _, _ => False
    end.
Proof.
  intros Hdom.
  assert (Hcfg : exists cfg,
             ElectricalSpecs.configuration charger_type capacity = Return cfg /\
             ChargerSpecs.configuration charger_type capacity
               ChargerSpecs.default_params = Return cfg /\
             (charger_type = AC -> ac_current cfg = current cfg)).
  { destruct charger_type.
    - eexists. split; [apply electrical_configuration_AC |].
      split; [rewrite charger_configuration_AC by reflexivity; reflexivity |].
      intros _. now destruct (Qeq_bool capacity 7).
    - destruct Hdom as [Hdom | Hv]; [discriminate |].
      destruct (electrical_configuration_DC _ _ Hv) as [He _].
      eexists. split; [exact He |].
      split; [| discriminate].
      now rewrite (charger_configuration_DC capacity _ default_params_valid). }
  destruct Hcfg as (cfg & He & Hc & Hac).
  unfold ElectricalSpecs.calculate_requirements,
    ChargerSpecs.calculate_requirements.
  rewrite He, Hc; cbv beta iota zeta delta [bind].
  change ChargerSpecs.STANDARD_BREAKERS with ElectricalSpecs.STANDARD_BREAKERS.
  change ChargerSpecs.CABLE_CAPACITY with ElectricalSpecs.CABLE_CAPACITY.
  change (ChargerSpecs.derated_current cfg ChargerSpecs.default_params)
    with (ElectricalSpecs.derated_current cfg).
  change (ChargerSpecs.derated_ac_current cfg ChargerSpecs.default_params)
    with (ElectricalSpecs.derated_ac_current cfg).
  destruct (next_rating ElectricalSpecs.STANDARD_BREAKERS
              (ElectricalSpecs.derated_current cfg)) as [b |] eqn:Hb;
    [| exists None, None; auto].
  destruct (falsy_Z b); [exists None, None; auto |].
  destruct (next_cable _ b) as [[size ampacity] |] eqn:Hcable;
    cbv beta iota zeta delta [option_map fst]; [| exists None, None; auto].
  destruct (falsy_Q size); [exists None, None; auto |].
  rewrite (getitem_cable (cores cfg) size ampacity)
    by (now apply next_cable_spec in Hcable).
  cbv beta iota zeta delta [bind].
  eexists (Some _), (Some _).
  split; [reflexivity |]. split; [reflexivity |].
  unfold same_figures; simpl.
  destruct charger_type; repeat split;
    unfold ElectricalSpecs.derated_ac_current, ElectricalSpecs.derated_current;
    rewrite ?Hac by reflexivity; reflexivity.
Qed.

Lemma files_agree_at_default_parameters_witness :
  exists re rc,
    ElectricalSpecs.calculate_requirements DC 100 1 = Return re /\
    ChargerSpecs.calculate_requirements DC 100 1 ChargerSpecs.default_params
      = Return rc /\
    match re, rc with
    | Some e, Some c => same_figures e c
    | None, None => True
    | _, _ => False
    end.
Proof.
  apply files_agree_at_default_parameters.
  right; reflexivity.
Defined.

(** ** When the aggregation returns a design *)

Lemma next_rating_top (x : Q) (ladder : list Z) (top : Z) :
  In top ladder -> x <= inject_Z top ->
  exists b, next_rating ladder x = Some b.
Proof.
  intros Hin Hle. unfold next_rating.
  destruct (find _ ladder) as [b |] eqn:Hfind; [eauto |].
  apply Qle_bool_iff in Hle.
  rewrite (find_none _ _ Hfind top Hin) in Hle. discriminate.
Qed.

Lemma electrical_next_msb_total (x : Q) :
  x <= 3000 -> exists msb, ElectricalSpecs.next_msb x = Some msb.
Proof.
  intros Hle. unfold ElectricalSpecs.next_msb.
  destruct (find _ _) as [msb |] eqn:Hfind; [eauto |].
  apply Qle_bool_iff in Hle.
  assert (H : Qle_bool x 3000 = false).
  { apply (find_none _ _ Hfind (ElectricalSpecs.mkMsbConfig 3000 "2500x1500x800" 3000)).
    unfold ElectricalSpecs.MSB_CONFIGS; simpl; tauto. }
  rewrite H in Hle. discriminate.
Qed.

Lemma charger_next_msb_total (x : Q) :
  x <= 3000 -> exists msb, ChargerSpecs.next_msb x = Some msb.
Proof.
  intros Hle. unfold ChargerSpecs.next_msb.
  destruct (find _ _) as [msb |] eqn:Hfind; [eauto |].
  apply Qle_bool_iff in Hle.
  assert (H : Qle_bool x 3000 = false).
  { apply (find_none _ _ Hfind (ChargerSpecs.mkMsbConfig 3000 "2500x1500x800" 3000)).
    unfold ChargerSpecs.MSB_CONFIGS; simpl; tauto. }
  rewrite H in Hle. discriminate.
Qed.

Lemma electrical_msb_cases chargers :
  match next_rating ElectricalSpecs.STANDARD_BREAKERS
          (ElectricalSpecs.diversified_current chargers) with
  | None => ElectricalSpecs.calculate_msb chargers = Return None
  | Some b =>
      exists msb,
        ElectricalSpecs.next_msb (ElectricalSpecs.diversified_current chargers)
          = Some msb /\
        ElectricalSpecs.calculate_msb chargers =
        Return (Some (ElectricalSpecs.mkDistributionDesign
          (round (ElectricalSpecs.total_power chargers) 1)
          (round (ElectricalSpecs.total_derated_ac_current chargers) 1)
          ElectricalSpecs.diversity_factor
          (round (ElectricalSpecs.diversified_current chargers) 1)
          b (ElectricalSpecs.Amps msb)
          (ceil (ElectricalSpecs.diversified_current chargers / 100) * 100)
          (ElectricalSpecs.Dimensions_mm msb) (ElectricalSpecs.Amps msb)))
  end.
Proof.
  unfold ElectricalSpecs.calculate_msb; cbv zeta.
  fold (ElectricalSpecs.diversified_current chargers).
  destruct (next_rating ElectricalSpecs.STANDARD_BREAKERS
              (ElectricalSpecs.diversified_current chargers))
    as [b |] eqn:Hb; [| reflexivity].
  destruct (next_rating_spec _ _ Hb) as (Hin & Hle & _).
  rewrite (falsy_ladder b Hin).
  apply ladder_positive in Hin.
  assert (Hb3000 : inject_Z b <= inject_Z 3000) by (rewrite <- Zle_Qle; lia).
  change (inject_Z 3000) with 3000 in Hb3000.
  destruct (electrical_next_msb_total
              (ElectricalSpecs.diversified_current chargers)) as [msb Hmsb];
    [lra |].
  rewrite Hmsb. exists msb. split; reflexivity.
Qed.

Lemma charger_msb_cases chargers params :
  match next_rating ElectricalSpecs.STANDARD_BREAKERS
          (ChargerSpecs.diversified_current chargers params) with
  | None => ChargerSpecs.calculate_msb chargers params = Return None
  | Some b =>
      exists msb,
        ChargerSpecs.next_msb (ChargerSpecs.diversified_current chargers params)
          = Some msb /\
        ChargerSpecs.calculate_msb chargers params =
        Return (Some (ChargerSpecs.mkDistributionDesign
          (round (ChargerSpecs.total_power chargers) 1)
          (round (ChargerSpecs.total_derated_ac_current chargers) 1)
          (ChargerSpecs.diversity_factor params)
          (round (ChargerSpecs.diversified_current chargers params) 1)
          b (ChargerSpecs.Amps msb)
          (ceil (ChargerSpecs.diversified_current chargers params / 100) * 100)
          (ChargerSpecs.Dimensions msb) (ChargerSpecs.Amps msb)))
  end.
Proof.
  unfold ChargerSpecs.calculate_msb; cbv zeta.
  fold (ChargerSpecs.diversified_current chargers params).
  change ChargerSpecs.STANDARD_BREAKERS with ElectricalSpecs.STANDARD_BREAKERS.
  destruct (next_rating ElectricalSpecs.STANDARD_BREAKERS
              (ChargerSpecs.diversified_current chargers params))
    as [b |] eqn:Hb; [| reflexivity].
  destruct (next_rating_spec _ _ Hb) as (Hin & Hle & _).
  rewrite (falsy_ladder b Hin).
  apply ladder_positive in Hin.
  assert (Hb3000 : inject_Z b <= inject_Z 3000) by (rewrite <- Zle_Qle; lia).
  change (inject_Z 3000) with 3000 in Hb3000.
  destruct (charger_next_msb_total
              (ChargerSpecs.diversified_current chargers params)) as [msb Hmsb];
    [lra |].
  rewrite Hmsb. exists msb. split; reflexivity.
Qed.


(** ** The computed busbar rating *)

Lemma ceil_100_bounds (x : Q) :
  x <= inject_Z (ceil (x / 100) * 100) /\
  inject_Z (ceil (x / 100) * 100) < x + 100.
Proof.
  unfold ceil.
  assert (Hle := Qle_ceiling (x / 100)).
  assert (Hlt := Qceiling_lt (x / 100)).
  set (c := Qceiling (x / 100)) in *.
  rewrite inject_Z_mult.
  unfold Z.sub in Hlt. rewrite inject_Z_plus in Hlt.
  change (inject_Z (- (1))) with (-1 # 1) in Hlt.
  change (inject_Z 100) with 100.
  unfold Qdiv in Hle, Hlt. change (/ 100) with (1 # 100) in Hle, Hlt.
  split; lra.
Qed.

Lemma ceil_100_least (x : Q) (k : Z) :
  x <= inject_Z (100 * k) -> (ceil (x / 100) * 100 <= 100 * k)%Z.
Proof.
  intros Hx. unfold ceil.
  assert (H : (Qceiling (x / 100) <= k)%Z).
  { rewrite <- (Qceiling_Z k). apply Qceiling_resp_le.
    rewrite inject_Z_mult in Hx. change (inject_Z 100) with 100 in Hx.
    unfold Qdiv. change (/ 100) with (1 # 100). lra. }
  lia.
Qed.

Lemma busbars_multiples B : In B BUSBARS -> exists k, B = (100 * k)%Z.
Proof.
  unfold BUSBARS; simpl; intros H.
  repeat (destruct H as [<- | H];
          [first [ exists 1%Z; reflexivity | exists 2%Z; reflexivity
                 | exists 4%Z; reflexivity | exists 6%Z; reflexivity
                 | exists 8%Z; reflexivity | exists 10%Z; reflexivity
                 | exists 12%Z; reflexivity | exists 16%Z; reflexivity
                 | exists 20%Z; reflexivity | exists 25%Z; reflexivity
                 | exists 30%Z; reflexivity ] |]).
  contradiction.
Qed.

(** X9.  In a design returned by [calculate_msb] the busbar rating is a
    multiple of 100 A, at least the diversified current and less than 100 A
    above it, and it never exceeds the recommended board size. *)
Theorem busbar_rating_bounds :
  (forall chargers d,
      ElectricalSpecs.calculate_msb chargers = Return (Some d) ->
      let x := ElectricalSpecs.diversified_current chargers in
      (exists k, ElectricalSpecs.Busbar_Rating_A d = (k * 100)%Z) /\
      x <= inject_Z (ElectricalSpecs.Busbar_Rating_A d) /\
      inject_Z (ElectricalSpecs.Busbar_Rating_A d) < x + 100 /\
      (ElectricalSpecs.Busbar_Rating_A d
       <= ElectricalSpecs.Recommended_MSB_Size_A d)%Z) /\
  (forall chargers params d,
      ChargerSpecs.calculate_msb chargers params = Return (Some d) ->
      let x := ChargerSpecs.diversified_current chargers params in
      (exists k, ChargerSpecs.Busbar_Rating_A d = (k * 100)%Z) /\
      x <= inject_Z (ChargerSpecs.Busbar_Rating_A d) /\
      inject_Z (ChargerSpecs.Busbar_Rating_A d) < x + 100 /\
      (ChargerSpecs.Busbar_Rating_A d
       <= ChargerSpecs.Recommended_MSB_Size_A d)%Z).
Proof.
  split.
  - intros chargers d Hd x; subst x.
    assert (H := electrical_msb_cases chargers).
    destruct (next_rating _ _) as [b |]; [| congruence].
    destruct H as (msb & Hmsb & H). rewrite H in Hd. injection Hd as <-.
    simpl.
    destruct (ceil_100_bounds (ElectricalSpecs.diversified_current chargers))
      as [Hle Hlt].
    split; [eexists; reflexivity |]. split; [exact Hle |].
    split; [exact Hlt |].
    apply electrical_next_msb_busbar in Hmsb as [HB ->].
    destruct (next_rating_sorted _ _ _ busbars_sorted HB) as (Hin & HxB & _).
    destruct (busbars_multiples _ Hin) as [k Hk].
    rewrite Hk in *. now apply ceil_100_least.
  - intros chargers params d Hd x; subst x.
    assert (H := charger_msb_cases chargers params).
    destruct (next_rating _ _) as [b |]; [| congruence].
    destruct H as (msb & Hmsb & H). rewrite H in Hd. injection Hd as <-.
    simpl.
    destruct (ceil_100_bounds
                (ChargerSpecs.diversified_current chargers params))
      as [Hle Hlt].
    split; [eexists; reflexivity |]. split; [exact Hle |].
    split; [exact Hlt |].
    apply charger_next_msb_busbar in Hmsb as [HB ->].
    destruct (next_rating_sorted _ _ _ busbars_sorted HB) as (Hin & HxB & _).
    destruct (busbars_multiples _ Hin) as [k Hk].
    rewrite Hk in *. now apply ceil_100_least.
Qed.

Lemma busbar_rating_bounds_witness :
  exists d300 d,
    ElectricalSpecs.calculate_requirements DC 300 1 = Return (Some d300) /\
    ElectricalSpecs.calculate_msb [ElectricalSpecs.mkCharger DC 300 1 d300]
      = Return (Some d) /\
    (ElectricalSpecs.Busbar_Rating_A d
     <= ElectricalSpecs.Recommended_MSB_Size_A d)%Z.
Proof.
  do 2 eexists.
  split; [vm_compute; reflexivity |].
  split; [vm_compute; reflexivity |].
  lazymatch goal with
  | |- (ElectricalSpecs.Busbar_Rating_A ?d <= _)%Z =>
      destruct (proj1 busbar_rating_bounds
                  [ElectricalSpecs.mkCharger DC 300 1
                     (ElectricalSpecs.mkCircuitDesign 750 PhaseDC 400 500
                        479.8 599.7 500 (AS_NZS_60947_2 500 750) 500 Cores2C
                        569 Cores2C 300 DC)] d)
        as (_ & _ & _ & H); [vm_compute; reflexivity | exact H]
  end.
Defined.

(** ** The aggregation and the list it is given *)

Lemma next_rating_mono_sorted (ladder : list Z) (x1 x2 : Q) (b1 b2 : Z) :
  StronglySorted Z.lt ladder ->
  x1 <= x2 ->
  next_rating ladder x1 = Some b1 ->
  next_rating ladder x2 = Some b2 ->
  (b1 <= b2)%Z.
Proof.
  intros Hsorted Hx H1 H2.
  destruct (next_rating_sorted _ _ _ Hsorted H2) as (Hin2 & Hle2 & _).
  apply (next_rating_le ladder x1 b1 b2 Hsorted H1 Hin2). lra.
Qed.

(** X11.  Adding one sized charger at the end of the list never lowers the
    switchboard figures of [charger_specs.py]: if the longer list still gets
    a design, so did the shorter one, and the main breaker, the recommended
    board and the busbar rating of the longer list are at least those of the
    shorter one. *)
Theorem adding_a_charger_never_lowers_the_board chargers charger params d' :
  charger_entry charger ->
  0 <= ChargerSpecs.diversity_factor params ->
  ChargerSpecs.calculate_msb (chargers ++ [charger]) params
    = Return (Some d') ->
  exists d,
    ChargerSpecs.calculate_msb chargers params = Return (Some d) /\
    (ChargerSpecs.Main_Breaker_Size_A d
     <= ChargerSpecs.Main_Breaker_Size_A d')%Z /\
    (ChargerSpecs.Recommended_MSB_Size_A d
     <= ChargerSpecs.Recommended_MSB_Size_A d')%Z /\
    (ChargerSpecs.Busbar_Rating_A d <= ChargerSpecs.Busbar_Rating_A d')%Z.
Proof.
  intros Hentry Hdf Hd'.
  assert (Hk := charger_entry_nonneg _ Hentry).
  assert (Hdiv : ChargerSpecs.diversified_current chargers params
                 <= ChargerSpecs.diversified_current (chargers ++ [charger])
                      params).
  { unfold ChargerSpecs.diversified_current,
      ChargerSpecs.total_derated_ac_current, ChargerSpecs.sum.
    rewrite fold_left_app; simpl. nra. }
  assert (H' := charger_msb_cases (chargers ++ [charger]) params).
  destruct (next_rating ElectricalSpecs.STANDARD_BREAKERS
              (ChargerSpecs.diversified_current (chargers ++ [charger])
                 params)) as [b' |] eqn:Hb'; [| congruence].
  destruct H' as (msb' & Hmsb' & H'). rewrite H' in Hd'. injection Hd' as <-.
  destruct (next_rating_spec _ _ Hb') as (Hin' & Hle' & _).
  destruct (next_rating_top (ChargerSpecs.diversified_current chargers params)
              _ b' Hin') as [b Hb]; [lra |].
  assert (H := charger_msb_cases chargers params).
  rewrite Hb in H. destruct H as (msb & Hmsb & ->).
  eexists; split; [reflexivity |]. simpl.
  split; [exact (next_rating_mono _ _ _ _ Hdiv Hb Hb') |].
  apply charger_next_msb_busbar in Hmsb as [HB ->].
  apply charger_next_msb_busbar in Hmsb' as [HB' ->].
  split; [exact (next_rating_mono_sorted _ _ _ _ _ busbars_sorted Hdiv HB HB') |].
  unfold ceil.
  assert ((Qceiling (ChargerSpecs.diversified_current chargers params / 100)
           <= Qceiling (ChargerSpecs.diversified_current
                          (chargers ++ [charger]) params / 100))%Z).
  { apply Qceiling_resp_le. apply div_mono; [assumption | reflexivity]. }
  lia.
Qed.

Lemma adding_a_charger_never_lowers_the_board_witness :
  exists d7 d',
    ChargerSpecs.calculate_requirements AC 7 1 ChargerSpecs.default_params
      = Return (Some d7) /\
    let c := ChargerSpecs.mkCharger AC 7 1 d7 in
    ChargerSpecs.calculate_msb ([c; c] ++ [c]) ChargerSpecs.default_params
      = Return (Some d') /\
    exists d,
      ChargerSpecs.calculate_msb [c; c] ChargerSpecs.default_params
        = Return (Some d) /\
      (ChargerSpecs.Main_Breaker_Size_A d
       <= ChargerSpecs.Main_Breaker_Size_A d')%Z.
Proof.
  do 2 eexists.
  split; [vm_compute; reflexivity |]. cbv zeta.
  split; [vm_compute; reflexivity |].
  lazymatch goal with
  | |- exists d, ChargerSpecs.calculate_msb [?c; _] _ = _ /\ (_ <= _ ?d')%Z =>
      destruct (adding_a_charger_never_lowers_the_board [c; c] c
                  ChargerSpecs.default_params d')
        as (d & Hd & Hm & _)
  end.
  - split; [simpl; lia |].
    exists AC, 7, 1%Z, ChargerSpecs.default_params.
    split; [discriminate |]. split; [exact default_params_valid |].
    vm_compute; reflexivity.
  - discriminate.
  - vm_compute; reflexivity.
  - exists d. split; assumption.
Defined.

(** ** The incomer cable of the diagram *)

Lemma incomer_cable_cases (d : ChargerSpecs.DistributionDesign) :
  let x := ChargerSpecs.Diversified_Current_A d in
  (x <= 250 /\ ChargerSpecs.get_incomer_cable_size d = 120) \/
  (250 < x /\ x <= 400 /\ ChargerSpecs.get_incomer_cable_size d = 185) \/
  (400 < x /\ x <= 600 /\ ChargerSpecs.get_incomer_cable_size d = 300) \/
  (600 < x /\ x <= 800 /\ ChargerSpecs.get_incomer_cable_size d = 400) \/
  (800 < x /\ ChargerSpecs.get_incomer_cable_size d = 500).
Proof.
  unfold ChargerSpecs.get_incomer_cable_size; cbv zeta.
  set (x := ChargerSpecs.Diversified_Current_A d).
  destruct (Qle_bool x 250) eqn:E1;
    [apply Qle_bool_iff in E1; auto |].
  destruct (Qle_bool x 400) eqn:E2;
    [apply Qle_bool_iff in E2 |];
    (assert (250 < x)
      by (apply Qnot_le_lt; intros H; apply Qle_bool_iff in H; congruence));
    [right; left; auto |].
  destruct (Qle_bool x 600) eqn:E3;
    [apply Qle_bool_iff in E3 |];
    (assert (400 < x)
      by (apply Qnot_le_lt; intros H'; apply Qle_bool_iff in H'; congruence));
    [right; right; left; auto |].
  destruct (Qle_bool x 800) eqn:E4;
    [apply Qle_bool_iff in E4 |];
    (assert (600 < x)
      by (apply Qnot_le_lt; intros H'; apply Qle_bool_iff in H'; congruence));
    [right; right; right; left; auto |].
  assert (800 < x)
    by (apply Qnot_le_lt; intros H'; apply Qle_bool_iff in H'; congruence).
  right; right; right; right; auto.
Qed.


(** X12.  [get_incomer_cable_size] returns one of 120, 185, 300, 400 and
    500 mm2, each a key of the four-core ampacity table, so the lookup
    [CABLE_CAPACITY["4C"][cable_size]] of [generate_sld] never fails; and a
    larger diversified current never gets a smaller incomer cable. *)
Theorem incomer_cable_in_table :
  (forall d,
      exists ampacity,
        getitem (ChargerSpecs.CABLE_CAPACITY Cores4C)
          (ChargerSpecs.get_incomer_cable_size d) = Return ampacity /\
        In (ChargerSpecs.get_incomer_cable_size d, ampacity)
          [(120, 178); (185, 240); (300, 334); (400, 400); (500, 464)]) /\
  (forall d d',
      ChargerSpecs.Diversified_Current_A d
        <= ChargerSpecs.Diversified_Current_A d' ->
      ChargerSpecs.get_incomer_cable_size d
        <= ChargerSpecs.get_incomer_cable_size d').
Proof.
  split.
  - intros d.
    destruct (incomer_cable_cases d)
      as [[_ ->] | [(_ & _ & ->) | [(_ & _ & ->) | [(_ & _ & ->) | [_ ->]]]]];
      eexists; (split; [vm_compute; reflexivity | simpl; tauto]).
  - intros d d' Hle.
    destruct (incomer_cable_cases d)
      as [[H1 ->] | [(H1 & H2 & ->) | [(H1 & H2 & ->)
                                      | [(H1 & H2 & ->) | [H1 ->]]]]];
      destruct (incomer_cable_cases d')
        as [[H1' ->] | [(H1' & H2' & ->) | [(H1' & H2' & ->)
                                           | [(H1' & H2' & ->) | [H1' ->]]]]];
      cbv zeta in *; first [discriminate | exfalso; lra].
Qed.

Lemma incomer_cable_in_table_witness :
  exists d150 d,
    ChargerSpecs.calculate_requirements DC 150 1 ChargerSpecs.default_params
      = Return (Some d150) /\
    ChargerSpecs.calculate_msb [ChargerSpecs.mkCharger DC 150 1 d150]
      ChargerSpecs.default_params = Return (Some d) /\
    ChargerSpecs.get_incomer_cable_size d
      <= ChargerSpecs.get_incomer_cable_size d.
Proof.
  do 2 eexists.
  split; [vm_compute; reflexivity |].
  split; [vm_compute; reflexivity |].
  apply (proj2 incomer_cable_in_table). apply Qle_refl.
Defined.

(** X13.  The ampacity printed on the incomer edge of the diagram is at
    least the diversified current only when that current is at most 178 A:
    up to 250 A the 120 mm2 cable with 178 A is chosen, and above 250 A every
    chosen cable has an ampacity below the current it is chosen for. *)
Theorem incomer_ampacity_covers_current_up_to_178 d :
  exists ampacity,
    getitem (ChargerSpecs.CABLE_CAPACITY Cores4C)
      (ChargerSpecs.get_incomer_cable_size d) = Return ampacity /\
    (ChargerSpecs.Diversified_Current_A d <= ampacity
     <-> ChargerSpecs.Diversified_Current_A d <= 178).
Proof.
  destruct (incomer_cable_cases d)
    as [[H1 ->] | [(H1 & H2 & ->) | [(H1 & H2 & ->)
                                    | [(H1 & H2 & ->) | [H1 ->]]]]];
    cbv zeta in *;
    eexists; (split; [vm_compute; reflexivity |]); split; intros H; lra.
Qed.

(** ** The transformer of the diagram *)

(** X14.  For a positive power factor the transformer rating is a multiple
    of 100 kVA, at least 500 kVA and at least the connected load in kVA, and
    it is the least such: it is 500 kVA or less than 100 kVA above the
    load. *)
Theorem trafo_rating_bounds d params :
  0 < ChargerSpecs.power_factor params ->
  let total_kva :=
    ChargerSpecs.Total_Connected_Load_kW d / ChargerSpecs.power_factor params in
  exists r,
    ChargerSpecs.trafo_rating d params = Return r /\
    (exists k, r = (k * 100)%Z) /\
    (500 <= r)%Z /\
    total_kva <= inject_Z r /\
    (r = 500%Z \/ inject_Z r < total_kva + 100).
Proof.
  intros Hpf total_kva. unfold ChargerSpecs.trafo_rating.
  rewrite truediv_pos by assumption. cbv beta iota delta [bind].
  fold total_kva.
  destruct (ceil_100_bounds total_kva) as [Hle Hlt].
  eexists; split; [reflexivity |].
  destruct (Z.max_spec (ceil (total_kva / 100) * 100) 500) as [[Hm ->] | [Hm ->]].
  - split; [exists 5%Z; reflexivity |]. split; [lia |].
    split; [| left; reflexivity].
    assert (inject_Z (ceil (total_kva / 100) * 100) <= inject_Z 500)
      by (rewrite <- Zle_Qle; lia).
    lra.
  - split; [eexists; reflexivity |]. split; [lia |].
    split; [exact Hle | right; exact Hlt].
Qed.

Lemma trafo_rating_bounds_witness :
  exists d150 d r,
    ChargerSpecs.calculate_requirements DC 150 1 ChargerSpecs.default_params
      = Return (Some d150) /\
    (let c := ChargerSpecs.mkCharger DC 150 1 d150 in
     ChargerSpecs.calculate_msb [c; c; c; c] ChargerSpecs.default_params
       = Return (Some d)) /\
    ChargerSpecs.trafo_rating d ChargerSpecs.default_params = Return r /\
    r = 700%Z.
Proof.
  do 3 eexists.
  split; [vm_compute; reflexivity |].
  split; [vm_compute; reflexivity |].
  lazymatch goal with
  | |- ChargerSpecs.trafo_rating ?d _ = _ /\ _ =>
      destruct (trafo_rating_bounds d ChargerSpecs.default_params)
        as (r & Hr & _); [reflexivity |]
  end.
  split; [vm_compute; reflexivity | reflexivity].
Defined.





(** ** The circuits of the diagram *)

(** X16.  For a list entry that carries a design returned by
    [calculate_requirements], the breaker node of the diagram names the
    standard and the rating of the design's own protective-device annotation,
    and it is an MCB exactly when the breaker is of 100 A or less. *)
Theorem diagram_breaker_agrees_with_design charger_type capacity quantity
    params charger :
  ChargerSpecs.calculate_requirements charger_type capacity quantity params
    = Return (Some (ChargerSpecs.result charger)) ->
  let d := ChargerSpecs.result charger in
  ChargerSpecs.breaker_standard charger
    = standard_of (ChargerSpecs.Breaker_Specs d) /\
  rating_of (ChargerSpecs.Breaker_Specs d) = ChargerSpecs.Breaker_Size_A d /\
  (ChargerSpecs.breaker_type charger = ChargerSpecs.MCB
   <-> (ChargerSpecs.Breaker_Size_A d <= 100)%Z).
Proof.
  intros H d. subst d.
  apply charger_sizing_design in H
    as (cfg & b & size & amp & _ & _ & _ & Hd).
  unfold ChargerSpecs.breaker_standard, ChargerSpecs.breaker_type.
  rewrite Hd; simpl. unfold ChargerSpecs.breaker_spec.
  split; [destruct charger_type; [destruct (Qeq_bool capacity 7) |];
          reflexivity |].
  split; [destruct charger_type; [destruct (Qeq_bool capacity 7) |];
          reflexivity |].
  destruct (100 <? b)%Z eqn:E.
  - apply Z.ltb_lt in E. split; [discriminate | lia].
  - apply Z.ltb_ge in E. split; [intros _; exact E | reflexivity].
Qed.

Lemma diagram_breaker_agrees_with_design_witness :
  exists d,
    ChargerSpecs.calculate_requirements DC 100 1 ChargerSpecs.default_params
      = Return (Some d) /\
    ChargerSpecs.breaker_standard (ChargerSpecs.mkCharger DC 100 1 d)
      = standard_of (ChargerSpecs.Breaker_Specs d).
Proof.
  eexists; split; [vm_compute; reflexivity |].
  lazymatch goal with
  | |- ChargerSpecs.breaker_standard (ChargerSpecs.mkCharger _ _ _ ?d) = _ =>
      destruct (diagram_breaker_agrees_with_design DC 100 1%Z
                  ChargerSpecs.default_params
                  (ChargerSpecs.mkCharger DC 100 1 d)) as (H & _);
        [vm_compute; reflexivity | exact H]
  end.
Defined.

Lemma charger_circuits_declared i chargers :
  declared (ChargerSpecs.charger_circuits i chargers)
  = flat_map (fun j => [ChargerSpecs.CB j; ChargerSpecs.CH j])
      (seq i (List.length chargers)).
Proof.
  revert i. induction chargers as [| c chargers IH]; intros i; simpl.
  - reflexivity.
  - now rewrite <- IH.
Qed.

Lemma charger_circuits_edges i chargers :
  edges (ChargerSpecs.charger_circuits i chargers)
  = flat_map (fun j => [(ChargerSpecs.EVDB, ChargerSpecs.CB j);
                        (ChargerSpecs.CB j, ChargerSpecs.CH j)])
      (seq i (List.length chargers)).
Proof.
  revert i. induction chargers as [| c chargers IH]; intros i; simpl.
  - reflexivity.
  - now rewrite <- IH.
Qed.

Lemma charger_circuits_nth i chargers j charger :
  nth_error chargers j = Some charger ->
  let d := ChargerSpecs.result charger in
  In (ChargerSpecs.node (ChargerSpecs.CB (i + j))
        (ChargerSpecs.breaker_label (ChargerSpecs.breaker_type charger)
           (ChargerSpecs.Breaker_Size_A d)
           (ChargerSpecs.breaker_standard charger)))
     (ChargerSpecs.charger_circuits i chargers) /\
  In (ChargerSpecs.edge (ChargerSpecs.CB (i + j)) (ChargerSpecs.CH (i + j))
        (ChargerSpecs.cable_info (ChargerSpecs.Cable_Size_mm2 d)
           (ChargerSpecs.Cable_Type d) (ChargerSpecs.Cable_Capacity_A d)))
     (ChargerSpecs.charger_circuits i chargers).
Proof.
  revert i j. induction chargers as [| c chargers IH]; intros i j.
  - destruct j; discriminate.
  - destruct j as [| j]; simpl.
    + intros [= ->]. rewrite Nat.add_0_r. tauto.
    + intros H. destruct (IH (S i) j H) as [H1 H2].
      rewrite Nat.add_succ_r. simpl in H1, H2. tauto.
Qed.

Lemma circuits_NoDup i n :
  NoDup (flat_map (fun j => [ChargerSpecs.CB j; ChargerSpecs.CH j]) (seq i n)).
Proof.
  revert i. induction n as [| n IH]; intros i; simpl; [constructor |].
  constructor.
  - intros [H | H]; [discriminate |].
    apply in_flat_map in H as (j & Hj & [H | [H | []]]); [| discriminate].
    injection H as ->. apply in_seq in Hj. lia.
  - constructor; [| apply IH].
    intros H. apply in_flat_map in H as (j & Hj & [H | [H | []]]);
      [discriminate |].
    injection H as ->. apply in_seq in Hj. lia.
Qed.

(** X17.  When [generate_sld] returns, the graph has the transformer, the
    board, one breaker node and one charger node per list entry, and the
    legend, each declared once; its edges are transformer to board and, for
    every entry [i], board to breaker [i] and breaker [i] to charger [i], so
    every edge joins declared nodes; and the breaker node and the cable edge
    of entry [i] carry the breaker size and the cable of that entry's
    design. *)
Theorem diagram_topology chargers d params sld :
  ChargerSpecs.generate_sld chargers d params = Return sld ->
  let n := List.length chargers in
  declared sld
  = [ChargerSpecs.TR; ChargerSpecs.EVDB]
    ++ flat_map (fun i => [ChargerSpecs.CB i; ChargerSpecs.CH i]) (seq 0 n)
    ++ [ChargerSpecs.LEGEND] /\
  NoDup (declared sld) /\
  edges sld
  = (ChargerSpecs.TR, ChargerSpecs.EVDB)
    :: flat_map (fun i => [(ChargerSpecs.EVDB, ChargerSpecs.CB i);
                           (ChargerSpecs.CB i, ChargerSpecs.CH i)]) (seq 0 n) /\
  (forall a b, In (a, b) (edges sld) ->
               In a (declared sld) /\ In b (declared sld)) /\
  (forall i charger,
      nth_error chargers i = Some charger ->
      In (ChargerSpecs.node (ChargerSpecs.CB i)
            (ChargerSpecs.breaker_label (ChargerSpecs.breaker_type charger)
               (ChargerSpecs.Breaker_Size_A (ChargerSpecs.result charger))
               (ChargerSpecs.breaker_standard charger))) sld /\
      In (ChargerSpecs.edge (ChargerSpecs.CB i) (ChargerSpecs.CH i)
            (ChargerSpecs.cable_info
               (ChargerSpecs.Cable_Size_mm2 (ChargerSpecs.result charger))
               (ChargerSpecs.Cable_Type (ChargerSpecs.result charger))
               (ChargerSpecs.Cable_Capacity_A (ChargerSpecs.result charger))))
         sld).
Proof.
  unfold ChargerSpecs.generate_sld.
  destruct (ChargerSpecs.trafo_rating d params) as [r | e];
    cbv beta iota zeta delta [bind]; [| discriminate].
  destruct (getitem _ _) as [amp | e]; cbv beta iota zeta delta [bind];
    [| discriminate].
  intros [= <-].
  lazymatch goal with |- declared ?l = _ /\ _ => set (body := l) end.
  assert (Hdecl :
    declared body
    = [ChargerSpecs.TR; ChargerSpecs.EVDB]
      ++ flat_map (fun i => [ChargerSpecs.CB i; ChargerSpecs.CH i])
           (seq 0 (List.length chargers))
      ++ [ChargerSpecs.LEGEND]).
  { subst body. unfold declared. simpl. rewrite flat_map_app. simpl.
    fold (declared (ChargerSpecs.charger_circuits 0 chargers)).
    now rewrite charger_circuits_declared. }
  assert (Hedges :
    edges body
    = (ChargerSpecs.TR, ChargerSpecs.EVDB)
      :: flat_map (fun i => [(ChargerSpecs.EVDB, ChargerSpecs.CB i);
                             (ChargerSpecs.CB i, ChargerSpecs.CH i)])
           (seq 0 (List.length chargers))).
  { subst body. unfold edges. simpl. rewrite flat_map_app. simpl.
    fold (edges (ChargerSpecs.charger_circuits 0 chargers)).
    rewrite charger_circuits_edges. now rewrite app_nil_r. }
  rewrite Hdecl, Hedges.
  split; [reflexivity |].
  split.
  { simpl. constructor.
    - intros [H | H]; [discriminate |].
      apply in_app_or in H as [H | [H | []]]; [| discriminate].
      apply in_flat_map in H as (j & _ & [H | [H | []]]); discriminate.
    - constructor.
      + intros H. apply in_app_or in H as [H | [H | []]]; [| discriminate].
        apply in_flat_map in H as (j & _ & [H | [H | []]]); discriminate.
      + apply NoDup_app; [apply circuits_NoDup | repeat constructor; auto |].
        intros a H [<- | []].
        apply in_flat_map in H as (j & _ & [H | [H | []]]); discriminate. }
  split; [reflexivity |].
  split.
  { assert (Hcircuit : forall j x,
              In j (seq 0 (List.length chargers)) ->
              In x [ChargerSpecs.CB j; ChargerSpecs.CH j] ->
              In x ([ChargerSpecs.TR; ChargerSpecs.EVDB]
                    ++ flat_map
                         (fun i => [ChargerSpecs.CB i; ChargerSpecs.CH i])
                         (seq 0 (List.length chargers))
                    ++ [ChargerSpecs.LEGEND])).
    { intros j x Hj Hx. apply in_or_app; right. apply in_or_app; left.
      apply in_flat_map. eauto. }
    intros a b [[= <- <-] | H]; [simpl; tauto |].
    apply in_flat_map in H as (j & Hj & [[= <- <-] | [[= <- <-] | []]]).
    - split; [simpl; tauto | apply (Hcircuit j); simpl; tauto].
    - split; apply (Hcircuit j); simpl; tauto. }
  intros i charger Hnth.
  destruct (charger_circuits_nth 0 chargers i charger Hnth) as [H1 H2].
  simpl in H1, H2. subst body.
  split; do 3 right; apply in_or_app; left; assumption.
Qed.

Lemma diagram_topology_witness :
  exists d150 d sld,
    ChargerSpecs.calculate_requirements DC 150 1 ChargerSpecs.default_params
      = Return (Some d150) /\
    ChargerSpecs.calculate_msb [ChargerSpecs.mkCharger DC 150 1 d150]
      ChargerSpecs.default_params = Return (Some d) /\
    ChargerSpecs.generate_sld [ChargerSpecs.mkCharger DC 150 1 d150] d
      ChargerSpecs.default_params = Return sld /\
    NoDup (declared sld) /\
    edges sld
    = [(ChargerSpecs.TR, ChargerSpecs.EVDB);
       (ChargerSpecs.EVDB, ChargerSpecs.CB 0);
       (ChargerSpecs.CB 0, ChargerSpecs.CH 0)].
Proof.
  do 3 eexists.
  split; [vm_compute; reflexivity |].
  split; [vm_compute; reflexivity |].
  split; [vm_compute; reflexivity |].
  lazymatch goal with
  | |- NoDup (declared ?sld) /\ _ =>
      destruct (diagram_topology
                  [ChargerSpecs.mkCharger DC 150 1
                     (ChargerSpecs.mkCircuitDesign 500 PhaseDC 300 375
                        239.9 299.9 400 (AS_NZS_60947_2 400 500) 300 Cores2C
                        409 Cores2C 150 DC)]
                  (ChargerSpecs.mkDistributionDesign 150 299.9 0.9 269.9 315
                     400 300 "600x300x250" 400)
                  ChargerSpecs.default_params sld)
        as (_ & Hn & He & _); [vm_compute; reflexivity |]
  end.
  split; [exact Hn | exact He].
Defined.

(** ** The list of the session *)

Lemma on_menu_nonneg charger_type capacity :
  on_menu charger_type capacity -> 0 <= capacity.
Proof.
  destruct charger_type; unfold on_menu, AC_CAPACITIES, DC_CAPACITIES; simpl;
    intros H; repeat (destruct H as [<- | H]; [discriminate |]);
    contradiction.
Qed.

Lemma ui_params_valid params : ui_params params -> valid_params params.
Proof.
  unfold ui_params, valid_params. intros (H1 & H2 & H3 & H4 & H5 & H6).
  repeat split; lra.
Qed.

Lemma remove_middle {A : Type} (l1 : list A) (x : A) (l2 : list A) :
  firstn (List.length l1) (l1 ++ x :: l2)
  ++ skipn (S (List.length l1)) (l1 ++ x :: l2)
  = l1 ++ l2.
Proof.
  induction l1 as [| a l1 IH]; [reflexivity |].
  change (a :: (firstn (List.length l1) (l1 ++ x :: l2)
                ++ skipn (S (List.length l1)) (l1 ++ x :: l2))
          = a :: (l1 ++ l2)).
  now rewrite IH.
Qed.

Lemma pop_spec {A : Type} (l : list A) (index : Z) :
  let n := Z.of_nat (List.length l) in
  let i := if (index <? 0)%Z then (index + n)%Z else index in
  match pop l index with
  | IndexError => (i < 0 \/ n <= i)%Z
  | Popped x rest =>
      (0 <= i < n)%Z /\
      exists l1 l2,
        l = l1 ++ x :: l2 /\ rest = l1 ++ l2 /\
        List.length l1 = Z.to_nat i
  end.
Proof.
  intros n i. unfold pop. fold n. fold i.
  destruct ((i <? 0) || (n <=? i))%Z eqn:E.
  - apply orb_true_iff in E as [E | E]; [apply Z.ltb_lt in E | apply Z.leb_le in E];
      lia.
  - apply orb_false_iff in E as [E1 E2].
    apply Z.ltb_ge in E1. apply Z.leb_gt in E2.
    destruct (nth_error l (Z.to_nat i)) as [x |] eqn:Hnth.
    + split; [lia |].
      apply nth_error_split in Hnth as (l1 & l2 & -> & Hlen).
      exists l1, l2. split; [reflexivity |]. split; [| exact Hlen].
      rewrite <- Hlen. apply remove_middle.
    + apply nth_error_None in Hnth. subst n. lia.
Qed.

Lemma pop_In {A : Type} (l : list A) (index : Z) x rest :
  pop l index = Popped x rest -> forall y, In y rest -> In y l.
Proof.
  intros Hpop y Hy. assert (H := pop_spec l index). cbv zeta in H.
  rewrite Hpop in H. destruct H as (_ & l1 & l2 & -> & -> & _).
  apply in_app_or in Hy. apply in_or_app. simpl. tauto.
Qed.

(** X18.  Every list a session of either page can hold consists of entries
    that come from the menu and carry a design returned by
    [calculate_requirements] for their own type and capacity, with a quantity
    of at least one ([electrical_specs.py]) or exactly one
    ([charger_specs.py], for some parameters within the bounds of the
    settings panel). *)
Theorem session_entries_are_sized :
  (forall chargers,
      electrical_session chargers ->
      Forall (fun c =>
                on_menu (ElectricalSpecs.Type_ c) (ElectricalSpecs.Capacity_kW c)
                /\ (1 <= ElectricalSpecs.Quantity c)%Z
                /\ electrical_consistent c
                /\ electrical_entry c) chargers) /\
  (forall chargers,
      charger_session chargers ->
      Forall (fun c =>
                on_menu (ChargerSpecs.Type_ c) (ChargerSpecs.Capacity_kW c)
                /\ ChargerSpecs.Quantity c = 1%Z
                /\ (exists params,
                       ui_params params /\
                       ChargerSpecs.calculate_requirements
                         (ChargerSpecs.Type_ c) (ChargerSpecs.Capacity_kW c)
                         (ChargerSpecs.Quantity c) params
                       = Return (Some (ChargerSpecs.result c)))
                /\ charger_entry c) chargers).
Proof.
  split.
  - induction 1 as [| cs ct cap q cs' shown _ IH Hmenu Hq Hadd | cs _ _].
    + constructor.
    + unfold ElectricalSpecs.add_charger in Hadd.
      destruct (ElectricalSpecs.calculate_requirements ct cap q)
        as [[d |] | e] eqn:Hcalc; cbv beta iota delta [bind] in Hadd;
        [| injection Hadd as <- _; exact IH | discriminate].
      injection Hadd as <- _.
      apply Forall_app; split; [exact IH |].
      constructor; [| constructor]. simpl.
      split; [exact Hmenu |]. split; [exact Hq |].
      split; [exact Hcalc |].
      split; [simpl; lia |].
      exists ct, cap, q. split; [now apply on_menu_nonneg with ct | exact Hcalc].
    + constructor.
  - induction 1 as [| cs ct cap p cs' shown _ IH Hmenu Hui Hadd
                    | cs index x cs' _ IH Hpop | cs _ _].
    + constructor.
    + unfold ChargerSpecs.add_charger in Hadd; cbv zeta in Hadd.
      destruct (ChargerSpecs.calculate_requirements ct cap 1 p)
        as [[d |] | e] eqn:Hcalc; cbv beta iota delta [bind] in Hadd;
        [| injection Hadd as <- _; exact IH | discriminate].
      injection Hadd as <- _.
      apply Forall_app; split; [exact IH |].
      constructor; [| constructor]. simpl.
      split; [exact Hmenu |]. split; [reflexivity |].
      split; [exists p; split; assumption |].
      split; [simpl; lia |].
      exists ct, cap, 1%Z, p.
      split; [now apply on_menu_nonneg with ct |].
      split; [now apply ui_params_valid | exact Hcalc].
    + rewrite Forall_forall in IH |- *.
      intros y Hy. apply IH. exact (pop_In _ _ _ _ Hpop y Hy).
    + constructor.
Qed.

Lemma session_entries_are_sized_witness :
  exists chargers,
    electrical_session chargers /\
    List.length chargers = 2%nat /\
    Forall electrical_consistent chargers.
Proof.
  assert (H0 := electrical_session_init).
  assert (H1 : electrical_session
                 (fst (match ElectricalSpecs.add_charger [] AC 7 2 with
                       | Return r => r
                       | Raise _ => ([], true)
                       end))).
  { eapply electrical_session_add with (chargers := [])
      (charger_type := AC) (capacity := 7) (quantity := 2%Z) (shown := false);
      [exact H0 | unfold on_menu, AC_CAPACITIES; simpl; tauto | lia
      | vm_compute; reflexivity]. }
  vm_compute in H1.
  lazymatch type of H1 with
  | electrical_session ?l1 =>
      assert (H2 : electrical_session
                     (fst (match ElectricalSpecs.add_charger l1 DC 350 1 with
                           | Return r => r
                           | Raise _ => ([], true)
                           end)))
        by (eapply electrical_session_add with (chargers := l1)
              (charger_type := DC) (capacity := 350) (quantity := 1%Z)
              (shown := false);
            [exact H1 | unfold on_menu, DC_CAPACITIES; simpl; tauto | lia
            | vm_compute; reflexivity])
  end.
  vm_compute in H2.
  eexists; split; [exact H2 |]. split; [reflexivity |].
  assert (H := proj1 session_entries_are_sized _ H2).
  eapply Forall_impl; [| exact H]. intros c (_ & _ & Hc & _). exact Hc.
Defined.




(** ** What the page shows below the list *)


(** ** The cable of a larger charger *)

Lemma sorted_related {A : Type} (R : A -> A -> Prop) (l : list A) (x y : A) :
  StronglySorted R l -> In x l -> In y l -> x = y \/ R x y \/ R y x.
Proof.
  induction 1 as [| a l Hs IH Ha]; simpl; [contradiction |].
  rewrite Forall_forall in Ha.
  intros [<- | Hx] [<- | Hy]; auto.
Qed.

Lemma cable_ampacity_mono c s1 a1 s2 a2 :
  In (s1, a1) (ElectricalSpecs.CABLE_CAPACITY c) ->
  In (s2, a2) (ElectricalSpecs.CABLE_CAPACITY c) ->
  s1 <= s2 -> a1 <= a2.
Proof.
  intros H1 H2 Hs.
  destruct (sorted_related _ _ _ _ (size_and_ampacity_sorted c) H1 H2)
    as [[= -> ->] | [[H H'] | [H H']]]; simpl in *; lra.
Qed.

Lemma next_cable_mono c (b1 b2 : Z) s1 a1 s2 a2 :
  (b1 <= b2)%Z ->
  next_cable (ElectricalSpecs.CABLE_CAPACITY c) b1 = Some (s1, a1) ->
  next_cable (ElectricalSpecs.CABLE_CAPACITY c) b2 = Some (s2, a2) ->
  s1 <= s2 /\ a1 <= a2.
Proof.
  intros Hb H1 H2.
  apply next_cable_spec in H1 as (Hin1 & _ & Hmin1).
  apply next_cable_spec in H2 as (Hin2 & Hle2 & _).
  assert (Hs : s1 <= s2).
  { destruct (Qlt_le_dec s2 s1) as [Hlt | Hle]; [| assumption].
    exfalso. apply (Hmin1 s2 a2 Hin2 Hlt).
    apply Qle_trans with (inject_Z b2); [now rewrite <- Zle_Qle | assumption]. }
  split; [exact Hs | exact (cable_ampacity_mono c _ _ _ _ Hin1 Hin2 Hs)].
Qed.

Lemma electrical_cores_of_phase charger_type capacity cfg :
  ElectricalSpecs.configuration charger_type capacity = Return cfg ->
  cores cfg = match phase cfg with Three => Cores4C | _ => Cores2C end.
Proof.
  destruct charger_type.
  - rewrite electrical_configuration_AC. intros [= <-].
    now destruct (Qeq_bool capacity 7).
  - intros H.
    destruct (getitem (ElectricalSpecs.VOLTAGE DC) capacity) as [v | e] eqn:Hv.
    + destruct (electrical_configuration_DC _ _ Hv) as [H' _].
      rewrite H' in H. now injection H as <-.
    + unfold ElectricalSpecs.configuration in H. rewrite Hv in H.
      discriminate.
Qed.

Lemma charger_cores_of_phase charger_type capacity params cfg :
  ChargerSpecs.configuration charger_type capacity params = Return cfg ->
  cores cfg = match phase cfg with Three => Cores4C | _ => Cores2C end.
Proof.
  unfold ChargerSpecs.configuration. destruct charger_type.
  - destruct (Qeq_bool capacity 7); cbv beta iota zeta delta [bind];
      destruct (truediv _ _); [| discriminate | | discriminate];
      now intros [= <-].
  - cbv beta iota zeta delta [bind].
    destruct (truediv (capacity * 1000) _); [| discriminate].
    destruct (truediv capacity _); [| discriminate].
    destruct (truediv _ _); [| discriminate].
    now intros [= <-].
Qed.

(** X21.  For two capacities [c1 < c2] of the same charger type that are
    sized successfully with the same phase configuration, the cable of [c2]
    has at least the cross-section and at least the ampacity of the cable of
    [c1]. *)
Theorem cable_monotone_in_capacity :
  (forall charger_type c1 c2 q1 q2 d1 d2,
      c1 < c2 ->
      ElectricalSpecs.calculate_requirements charger_type c1 q1
        = Return (Some d1) ->
      ElectricalSpecs.calculate_requirements charger_type c2 q2
        = Return (Some d2) ->
      ElectricalSpecs.Phase d1 = ElectricalSpecs.Phase d2 ->
      ElectricalSpecs.Cable_Size d1 <= ElectricalSpecs.Cable_Size d2 /\
      ElectricalSpecs.Cable_Capacity_A d1
        <= ElectricalSpecs.Cable_Capacity_A d2) /\
  (forall charger_type c1 c2 q1 q2 params d1 d2,
      valid_params params ->
      c1 < c2 ->
      ChargerSpecs.calculate_requirements charger_type c1 q1 params
        = Return (Some d1) ->
      ChargerSpecs.calculate_requirements charger_type c2 q2 params
        = Return (Some d2) ->
      ChargerSpecs.Phase d1 = ChargerSpecs.Phase d2 ->
      ChargerSpecs.Cable_Size_mm2 d1 <= ChargerSpecs.Cable_Size_mm2 d2 /\
      ChargerSpecs.Cable_Capacity_A d1 <= ChargerSpecs.Cable_Capacity_A d2).
Proof.
  split.
  - intros ct c1 c2 q1 q2 d1 d2 Hlt H1 H2 Hphase.
    apply electrical_sizing_inv in H1
      as (cfg1 & Hcfg1 & Hb1 & Hc1 & _ & Hp1 & _).
    apply electrical_sizing_inv in H2
      as (cfg2 & Hcfg2 & Hb2 & Hc2 & _ & Hp2 & _).
    rewrite Hp1, Hp2 in Hphase.
    assert (Hcur := electrical_current_mono _ _ _ _ _ Hlt Hcfg1 Hcfg2 Hphase).
    assert (Hb : (ElectricalSpecs.Breaker_Size_A d1
                  <= ElectricalSpecs.Breaker_Size_A d2)%Z).
    { eapply next_rating_mono; [| exact Hb1 | exact Hb2].
      unfold ElectricalSpecs.derated_current. lra. }
    rewrite (electrical_cores_of_phase _ _ _ Hcfg1) in Hc1.
    rewrite (electrical_cores_of_phase _ _ _ Hcfg2), <- Hphase in Hc2.
    exact (next_cable_mono _ _ _ _ _ _ _ Hb Hc1 Hc2).
  - intros ct c1 c2 q1 q2 p d1 d2 Hvalid Hlt H1 H2 Hphase.
    apply charger_sizing_inv in H1
      as (cfg1 & Hcfg1 & Hb1 & Hc1 & _ & Hp1 & _).
    apply charger_sizing_inv in H2
      as (cfg2 & Hcfg2 & Hb2 & Hc2 & _ & Hp2 & _).
    rewrite Hp1, Hp2 in Hphase.
    assert (Hcur := charger_current_mono _ _ _ _ _ _ Hvalid Hlt Hcfg1 Hcfg2
                      Hphase).
    assert (Hb : (ChargerSpecs.Breaker_Size_A d1
                  <= ChargerSpecs.Breaker_Size_A d2)%Z).
    { eapply next_rating_mono; [| exact Hb1 | exact Hb2].
      unfold ChargerSpecs.derated_current.
      destruct Hvalid as (Hs & _). nra. }
    rewrite (charger_cores_of_phase _ _ _ _ Hcfg1) in Hc1.
    rewrite (charger_cores_of_phase _ _ _ _ Hcfg2), <- Hphase in Hc2.
    exact (next_cable_mono _ _ _ _ _ _ _ Hb Hc1 Hc2).
Qed.

Lemma cable_monotone_in_capacity_witness :
  exists d1 d2,
    ElectricalSpecs.calculate_requirements DC 150 1 = Return (Some d1) /\
    ElectricalSpecs.calculate_requirements DC 300 1 = Return (Some d2) /\
    ElectricalSpecs.Cable_Size d1 <= ElectricalSpecs.Cable_Size d2 /\
    ElectricalSpecs.Cable_Capacity_A d1 <= ElectricalSpecs.Cable_Capacity_A d2.
Proof.
  do 2 eexists.
  split; [vm_compute; reflexivity |].
  split; [vm_compute; reflexivity |].
  eapply (proj1 cable_monotone_in_capacity DC 150 300 1%Z 1%Z);
    [reflexivity | vm_compute; reflexivity | vm_compute; reflexivity
    | reflexivity].
Defined.
